(** * pmap-parser: the block parser and the inline transformer

    A shallow embedding of [src/utils/pmap-parser.ts] and the properties
    its specification states about [parsePmap] and [processInlineMarkup].

    JavaScript strings are sequences of UTF-16 code units; the functions of
    the parser never look at more than one code unit at a time and the
    regular expressions carry no [u] flag, so a string is modelled as a list
    of code units, each a number of [N]. *)

From Stdlib Require Import String Ascii.
From Stdlib Require Import List NArith Arith Bool Lia.
Import ListNotations.

(** ** JavaScript strings *)

Module JsString.

Definition char := N.
Definition jsstring := list char.

(** Code units of the characters the parser names. *)
Definition LF : char := 10%N.
Definition HASH : char := 35%N.      (* # *)
Definition STAR : char := 42%N.      (* * *)
Definition LPAREN : char := 40%N.    (* ( *)
Definition RPAREN : char := 41%N.    (* ) *)
Definition LBRACKET : char := 91%N.  (* [ *)
Definition RBRACKET : char := 93%N.  (* ] *)
Definition PIPE : char := 124%N.     (* | *)
Definition DQUOTE : char := 34%N.

(** String literals of the source, written as Rocq strings (all of them are
    ASCII). *)
Definition lit (s : string) : jsstring :=
  map N_of_ascii (list_ascii_of_string s).

(** ECMAScript LineTerminator: LF, CR, U+2028, U+2029. *)
Definition is_line_terminator (c : char) : bool :=
  existsb (N.eqb c) [10; 13; 8232; 8233]%N.

(** ECMAScript WhiteSpace: TAB, VT, FF, ZWNBSP and the Unicode category Zs
    (SP, NBSP, U+1680, U+2000..U+200A, U+202F, U+205F, U+3000). *)
Definition is_white_space (c : char) : bool :=
  existsb (N.eqb c) [9; 11; 12; 32; 160; 5760; 8239; 8287; 12288; 65279]%N
  || ((8192 <=? c) && (c <=? 8202))%N.

(** What [String.prototype.trim] strips and what [\s] matches: WhiteSpace and
    LineTerminator. *)
Definition is_space (c : char) : bool :=
  is_white_space c || is_line_terminator c.

Fixpoint trimStart (s : jsstring) : jsstring :=
  match s with
  | c :: s' => if is_space c then trimStart s' else s
  | [] => []
  end.

Definition trimEnd (s : jsstring) : jsstring := rev (trimStart (rev s)).

(** [s.trim()] *)
Definition trim (s : jsstring) : jsstring := trimEnd (trimStart s).

(** [a === b] on strings. *)
Fixpoint str_eqb (a b : jsstring) : bool :=
  match a, b with
  | [], [] => true
  | x :: a', y :: b' => N.eqb x y && str_eqb a' b'
  | _, _ => false
  end.

(** [s.startsWith(p)] *)
Fixpoint startsWith (s p : jsstring) {struct p} : bool :=
  match p with
  | [] => true
  | y :: p' => match s with
               | x :: s' => N.eqb x y && startsWith s' p'
               | [] => false
               end
  end.

(** [s.substring(n)] for [0 <= n]: the code units from index [n] on (the
    empty string when [n] exceeds the length). *)
Definition substring (s : jsstring) (n : nat) : jsstring := skipn n s.

(** [s.split('\n')]: the pieces between line feeds; the empty string gives
    one empty piece. *)
Fixpoint split_lines (s : jsstring) : list jsstring :=
  match s with
  | [] => [[]]
  | c :: s' =>
      if N.eqb c LF then [] :: split_lines s'
      else match split_lines s' with
           | l :: ls => (c :: l) :: ls
           | [] => [[c]]
           end
  end.

(** The text of a file given line by line (used to write examples). *)
Fixpoint join_lines (ls : list jsstring) : jsstring :=
  match ls with
  | [] => []
  | [l] => l
  | l :: ls' => l ++ LF :: join_lines ls'
  end.

End JsString.
Import JsString.

(** ** Regular expressions

    The fragment of ECMAScript regular expressions that the three patterns of
    the source use, with the backtracking semantics of the language
    specification: a matcher takes the rest of the input, the captures so
    far and a continuation, and tries its alternatives in priority order
    (greedy quantifiers try the longest repetition first). None of the
    patterns looks behind the position where it is tried, so a match at an
    index is a function of the suffix of the input starting there. *)

Module JsRegExp.

Inductive regex : Type :=
| RStr (w : jsstring)            (* a sequence of literal characters *)
| RStar (p : char -> bool)       (* greedy [C*] for a one-character class C *)
| RPlus (p : char -> bool)       (* greedy [C+] *)
| RSeq (r1 r2 : regex)           (* concatenation *)
| ROpt (r : regex)               (* greedy [(?:r)?] *)
| RGroup (n : nat) (r : regex).  (* capturing group number n *)

(** Captures: the most recent binding of a group comes first; a group that
    did not take part in the match has no binding ([undefined]). *)
Definition captures := list (nat * jsstring).

Definition set_cap (n : nat) (w : jsstring) (caps : captures) : captures :=
  (n, w) :: caps.

Fixpoint cap (n : nat) (caps : captures) : option jsstring :=
  match caps with
  | [] => None
  | (m, w) :: caps' => if Nat.eqb m n then Some w else cap n caps'
  end.

Fixpoint strip_prefix (p s : jsstring) : option jsstring :=
  match p with
  | [] => Some s
  | y :: p' => match s with
               | x :: s' => if N.eqb x y then strip_prefix p' s' else None
               | [] => None
               end
  end.

(** The text consumed between the input [s] and its suffix [s']. *)
Definition consumed (s s' : jsstring) : jsstring :=
  firstn (length s - length s') s.

Section Matcher.
Variable R : Type.

Definition cont := jsstring -> captures -> option R.

(** Greedy repetition of a class: one more character first, and the
    continuation at this point only when that fails. *)
Fixpoint star (p : char -> bool) (s : jsstring) (caps : captures)
         (k : cont) : option R :=
  match s with
  | c :: s' =>
      if p c then
        match star p s' caps k with
        | Some r => Some r
        | None => k s caps
        end
      else k s caps
  | [] => k s caps
  end.

Fixpoint rmatch (r : regex) (s : jsstring) (caps : captures) (k : cont)
  : option R :=
  match r with
  | RStr w =>
      match strip_prefix w s with
      | Some s' => k s' caps
      | None => None
      end
  | RStar p => star p s caps k
  | RPlus p =>
      match s with
      | c :: s' => if p c then star p s' caps k else None
      | [] => None
      end
  | RSeq r1 r2 =>
      rmatch r1 s caps (fun s' caps' => rmatch r2 s' caps' k)
  | ROpt r1 =>
      match rmatch r1 s caps
              (fun s' caps' =>
                 if Nat.eqb (length s') (length s) then None
                 else k s' caps') with
      | Some x => Some x
      | None => k s caps
      end
  | RGroup n r1 =>
      rmatch r1 s caps
        (fun s' caps' => k s' (set_cap n (consumed s s') caps'))
  end.
End Matcher.
Arguments star {R} p s caps k.
Arguments rmatch {R} r s caps k.

(** A successful match: the matched text (index 0 of the match array) and
    the captures. *)
Record match_result : Type :=
  { m_text : jsstring; m_caps : captures }.

(** A match attempt at the start of [s]. *)
Definition exec_at (r : regex) (s : jsstring) : option match_result :=
  rmatch r s []
    (fun s' caps => Some {| m_text := consumed s s'; m_caps := caps |}).

(** [s.match(r)] for a pattern without the [g] flag: the attempt at the
    lowest index that succeeds, indices running up to the length of [s]. *)
Fixpoint search (r : regex) (s : jsstring) : option match_result :=
  match exec_at r s with
  | Some m => Some m
  | None => match s with
            | [] => None
            | _ :: s' => search r s'
            end
  end.

(** Replacement templates: literal text and [$n]. *)
Inductive tpl_item : Type :=
| TLit (w : jsstring)
| TCap (n : nat).

Definition expand_item (m : match_result) (it : tpl_item) : jsstring :=
  match it with
  | TLit w => w
  | TCap n => match cap n (m_caps m) with
              | Some w => w
              | None => []
              end
  end.

Definition expand (tpl : list tpl_item) (m : match_result) : jsstring :=
  flat_map (expand_item m) tpl.

(** [s.replace(r, tpl)] for a pattern with the [g] flag. The scan walks the
    input; [skip] counts the characters of the last match still to be
    passed over. At an index where the pattern matches the replacement is
    emitted and the scan resumes after the match (one character further on
    after an empty match, the character being copied); elsewhere the
    character is copied. *)
Fixpoint replace_from (r : regex) (tpl : list tpl_item) (s : jsstring)
         (skip : nat) : jsstring :=
  match s with
  | [] =>
      match skip with
      | O => match exec_at r [] with
             | Some m => expand tpl m
             | None => []
             end
      | S _ => []
      end
  | c :: s' =>
      match skip with
      | S n => replace_from r tpl s' n
      | O =>
          match exec_at r s with
          | Some m =>
              expand tpl m ++
                match length (m_text m) with
                | O => c :: replace_from r tpl s' 0
                | S n => replace_from r tpl s' n
                end
          | None => c :: replace_from r tpl s' 0
          end
      end
  end.

Definition replace_all (r : regex) (tpl : list tpl_item) (s : jsstring)
  : jsstring :=
  replace_from r tpl s 0.

(** The language of a pattern, with the captures a match leaves: the
    declarative reading the matcher is compared with. *)
Fixpoint lang (r : regex) (w : jsstring) (c c' : captures) : Prop :=
  match r with
  | RStr u => w = u /\ c' = c
  | RStar p => forallb p w = true /\ c' = c
  | RPlus p => w <> [] /\ forallb p w = true /\ c' = c
  | RSeq r1 r2 =>
      exists w1 w2 c1, w = w1 ++ w2 /\ lang r1 w1 c c1 /\ lang r2 w2 c1 c'
  | ROpt r1 => (w = [] /\ c' = c) \/ (w <> [] /\ lang r1 w c c')
  | RGroup n r1 => exists c1, lang r1 w c c1 /\ c' = set_cap n w c1
  end.

End JsRegExp.
Import JsRegExp.

Declare Scope regex_scope.
Delimit Scope regex_scope with re.
Infix "+++" := RSeq (at level 60, right associativity) : regex_scope.

(** ** The data model *)

(** [PmapSection.type] *)
Inductive SectionType : Type :=
| TText | THeading | TList | TImage | TLink.

(** [interface PmapSection]: a flat record, the optional fields absent
    ([None]) unless the object literal that builds the section sets them. *)
Record PmapSection : Type :=
  { type : SectionType;
    content : jsstring;
    level : option nat;              (* for headings *)
    items : option (list jsstring);  (* for lists *)
    url : option jsstring;           (* for images and links *)
    alt : option jsstring }.         (* for images *)

(** [interface PmapData] *)
Record PmapData : Type :=
  { title : option jsstring;
    description : option jsstring;
    sections : list PmapSection }.

(** The object literals of the source. *)
Definition list_section (its : list jsstring) : PmapSection :=
  {| type := TList; content := []; level := None; items := Some its;
     url := None; alt := None |}.

Definition heading_section (c : jsstring) (lv : nat) : PmapSection :=
  {| type := THeading; content := c; level := Some lv; items := None;
     url := None; alt := None |}.

Definition image_section (u a : jsstring) : PmapSection :=
  {| type := TImage; content := []; level := None; items := None;
     url := Some u; alt := Some a |}.

Definition text_section (c : jsstring) : PmapSection :=
  {| type := TText; content := c; level := None; items := None;
     url := None; alt := None |}.

(** ** Failure

    The only operation of [parsePmap] that can throw is a method call on
    [undefined]: [lines[i].trim()] out of range and [match[1].trim()] on a
    group that did not take part in the match. *)
Inductive js_error : Type :=
| TypeError.

Inductive outcome (A : Type) : Type :=
| Returned (a : A)
| Thrown (e : js_error).
Arguments Returned {A} a.
Arguments Thrown {A} e.

Definition bind {A B : Type} (x : outcome A) (f : A -> outcome B)
  : outcome B :=
  match x with
  | Returned a => f a
  | Thrown e => Thrown e
  end.

(** ** The block parser *)

(** The variables of [parsePmap] that the loop updates: the [result] object
    and the locals [currentList] and [inMetadata]. *)
Record loop_state : Type :=
  { result : PmapData;
    currentList : option (list jsstring);
    inMetadata : bool }.

Definition initial_state : loop_state :=
  {| result := {| title := None; description := None; sections := [] |};
     currentList := None;
     inMetadata := false |}.

(** [result.sections.push(sec)] *)
Definition push (sec : PmapSection) (st : loop_state) : loop_state :=
  {| result := {| title := title (result st);
                  description := description (result st);
                  sections := sections (result st) ++ [sec] |};
     currentList := currentList st;
     inMetadata := inMetadata st |}.

(** The block [if (currentList) { result.sections.push({type: 'list', ...});
    currentList = null; }] that lines 40-47, 73-80, 94-101 and 126-133
    repeat. An array is truthy whatever its length. *)
Definition flush_list (st : loop_state) : loop_state :=
  match currentList st with
  | Some l =>
      {| result := result (push (list_section l) st);
         currentList := None;
         inMetadata := inMetadata st |}
  | None => st
  end.

Definition set_inMetadata (b : bool) (st : loop_state) : loop_state :=
  {| result := result st; currentList := currentList st; inMetadata := b |}.

Definition set_title (t : jsstring) (st : loop_state) : loop_state :=
  {| result := {| title := Some t;
                  description := description (result st);
                  sections := sections (result st) |};
     currentList := currentList st;
     inMetadata := inMetadata st |}.

Definition set_description (d : jsstring) (st : loop_state) : loop_state :=
  {| result := {| title := title (result st);
                  description := Some d;
                  sections := sections (result st) |};
     currentList := currentList st;
     inMetadata := inMetadata st |}.

(** [currentList.push(item)], after [if (!currentList) currentList = []]. *)
Definition push_item (item : jsstring) (st : loop_state) : loop_state :=
  {| result := result st;
     currentList := Some (match currentList st with
                          | Some l => l ++ [item]
                          | None => [item]
                          end);
     inMetadata := inMetadata st |}.

Definition is_hash (c : char) : bool := N.eqb c HASH.
Definition not_pipe (c : char) : bool := negb (N.eqb c PIPE).
Definition not_star (c : char) : bool := negb (N.eqb c STAR).
Definition not_rbracket (c : char) : bool := negb (N.eqb c RBRACKET).
Definition not_rparen (c : char) : bool := negb (N.eqb c RPAREN).
(** [.] without the [s] flag: any code unit but a line terminator. *)
Definition dot (c : char) : bool := negb (is_line_terminator c).

(** [/^#+/]: without the [m] flag [^] holds at index 0 only, so the pattern
    is the body [#+] tried at the start of the string and nowhere else. *)
Definition heading_re : regex := RPlus is_hash.

(** [/\[image:\s*([^\|]+)\s*(?:\|\s*(.+))?\]/], named piece by piece from
    the right: [\|\s*(.+)], then [(?:...)?\]], then [([^\|]+)\s*...], then
    the whole pattern. *)
Definition image_alt_re : regex :=
  (RStr (lit "|") +++ RStar is_space +++ RGroup 2 (RPlus dot))%re.

Definition image_close_re : regex :=
  (ROpt image_alt_re +++ RStr (lit "]"))%re.

Definition image_url_re : regex :=
  (RGroup 1 (RPlus not_pipe) +++ RStar is_space +++ image_close_re)%re.

Definition image_re : regex :=
  (RStr (lit "[image:") +++ RStar is_space +++ image_url_re)%re.

(** [trimmed.match(/^#+/)?.[0].length || 1] *)
Definition heading_level (trimmed : jsstring) : nat :=
  match exec_at heading_re trimmed with
  | Some m => match length (m_text m) with
              | O => 1
              | n => n
              end
  | None => 1
  end.

(** [match[2]?.trim() || ''] *)
Definition alt_of (m : match_result) : jsstring :=
  match cap 2 (m_caps m) with
  | Some w => match trim w with
              | [] => []
              | a => a
              end
  | None => []
  end.

(** The body of the [for] loop, lines 34-138, at index [i] on [line]. *)
Definition body (i : nat) (line : jsstring) (st : loop_state)
  : outcome loop_state :=
  let trimmed := trim line in
  match trimmed with
  | [] => (* Skip empty lines *)
      Returned (flush_list st)
  | _ :: _ =>
      if str_eqb trimmed (lit "---") && Nat.eqb i 0 then
        Returned (set_inMetadata true st)
      else if str_eqb trimmed (lit "---") && inMetadata st then
        Returned (set_inMetadata false st)
      else if inMetadata st then
        if startsWith trimmed (lit "title:") then
          Returned (set_title (trim (substring trimmed 6)) st)
        else if startsWith trimmed (lit "description:") then
          Returned (set_description (trim (substring trimmed 12)) st)
        else Returned st
      else if startsWith trimmed (lit "#") then
        let st1 := flush_list st in
        let lv := heading_level trimmed in
        let c := trim (substring trimmed lv) in
        Returned (push (heading_section c lv) st1)
      else if startsWith trimmed (lit "[image:") then
        let st1 := flush_list st in
        match search image_re trimmed with
        | Some m =>
            match cap 1 (m_caps m) with
            | Some u => Returned (push (image_section (trim u) (alt_of m)) st1)
            | None => Thrown TypeError
            end
        | None => Returned st1
        end
      else if startsWith trimmed (lit "-") then
        let item := trim (substring trimmed 1) in
        Returned (push_item item st)
      else
        Returned (push (text_section trimmed) (flush_list st))
  end.

(** The [for] loop over [lines] from index [i] on: [lines] holds the lines
    still to be read. *)
Fixpoint scan (lines : list jsstring) (i : nat) (st : loop_state)
  : outcome loop_state :=
  match lines with
  | [] => Returned st
  | line :: rest => bind (body i line st) (scan rest (S i))
  end.

(** Lines 141-150: the remaining list, and [return result]. *)
Definition finish (st : loop_state) : PmapData :=
  match currentList st with
  | Some l => result (push (list_section l) st)
  | None => result st
  end.

Definition parse_lines (lines : list jsstring) : outcome PmapData :=
  bind (scan lines 0 initial_state) (fun st => Returned (finish st)).

Definition parsePmap (content : jsstring) : outcome PmapData :=
  parse_lines (split_lines content).

(** The same loop as the source writes it, with its counter: each step tests
    [i < lines.length], reads [lines[i]] and runs the body. [fuel] bounds the
    number of tests; [None] is a run that did not finish within it. *)
Fixpoint for_loop (fuel : nat) (lines : list jsstring) (i : nat)
         (st : loop_state) : option (outcome loop_state) :=
  match fuel with
  | O => None
  | S fuel' =>
      if Nat.ltb i (length lines) then
        match nth_error lines i with
        | Some line =>
            match body i line st with
            | Returned st' => for_loop fuel' lines (S i) st'
            | Thrown e => Some (Thrown e)
            end
        | None => Some (Thrown TypeError)
        end
      else Some (Returned st)
  end.

Definition parsePmap_loop (fuel : nat) (content : jsstring)
  : option (outcome PmapData) :=
  match for_loop fuel (split_lines content) 0 initial_state with
  | Some (Returned st) => Some (Returned (finish st))
  | Some (Thrown e) => Some (Thrown e)
  | None => None
  end.

(** ** The inline transformer *)

(** [/\*\*([^\*]+)\*\*/g] *)
Definition bold_re : regex :=
  (RStr (lit "**") +++ RGroup 1 (RPlus not_star) +++ RStr (lit "**"))%re.

(** ['<strong>$1</strong>'] *)
Definition bold_tpl : list tpl_item :=
  [TLit (lit "<strong>"); TCap 1; TLit (lit "</strong>")].

(** [/\[([^\]]+)\]\(([^\)]+)\)/g] *)
Definition link_re : regex :=
  (RStr (lit "[") +++ RGroup 1 (RPlus not_rbracket) +++ RStr (lit "](")
   +++ RGroup 2 (RPlus not_rparen) +++ RStr (lit ")"))%re.

(** ['<a href="$2" target="_blank">$1</a>'] *)
Definition link_tpl : list tpl_item :=
  [TLit (lit "<a href=" ++ [DQUOTE]); TCap 2;
   TLit (DQUOTE :: lit " target=" ++ DQUOTE :: lit "_blank" ++ DQUOTE
           :: lit ">");
   TCap 1; TLit (lit "</a>")].

Definition processInlineMarkup (text : jsstring) : jsstring :=
  let text := replace_all bold_re bold_tpl text in
  let text := replace_all link_re link_tpl text in
  text.

(** ** Predicates the properties are stated with *)

Definition is_list_section (sec : PmapSection) : bool :=
  match type sec with
  | TList => true
  | _ => false
  end.

(** A section that is not a list, or a list with at least one item. *)
Definition nonempty_list_section (sec : PmapSection) : bool :=
  match type sec with
  | TList => match items sec with
             | Some (_ :: _) => true
             | _ => false
             end
  | _ => true
  end.

(** The invariant of the loop behind the non-empty lists: the pending list,
    when there is one, has an item, and so has every list already pushed. *)
Definition lists_nonempty (st : loop_state) : Prop :=
  forallb nonempty_list_section (sections (result st)) = true /\
  currentList st <> Some [].

(** The item a list line contributes: what follows the leading [-],
    trimmed. *)
Definition item_of (line : jsstring) : jsstring :=
  trim (substring (trim line) 1).

(** The value a metadata block gives a key, from the value [init] the key
    has before the block: the last line of the block that starts with the
    key decides. *)
Fixpoint last_value (key : jsstring) (meta : list jsstring)
         (init : option jsstring) : option jsstring :=
  match meta with
  | [] => init
  | l :: ls =>
      last_value key ls
        (if startsWith (trim l) key
         then Some (trim (substring (trim l) (length key)))
         else init)
  end.

(** The items of the pending list, none when there is no list. *)
Definition pending (st : loop_state) : list jsstring :=
  match currentList st with
  | Some l => l
  | None => []
  end.

(** The spans of the inline syntax, as the specification describes them: a
    bold span is [**x**] with [x] non-empty and free of [*]; a link span is
    [[t](u)] with [t] non-empty and free of []] and [u] non-empty and free of
    [)]. *)
Definition bold_span (w : jsstring) : Prop :=
  exists x, x <> [] /\ forallb not_star x = true /\
            w = lit "**" ++ x ++ lit "**".

Definition link_span (w : jsstring) : Prop :=
  exists t u, t <> [] /\ forallb not_rbracket t = true /\
              u <> [] /\ forallb not_rparen u = true /\
              w = lit "[" ++ t ++ lit "](" ++ u ++ lit ")".

Definition contains (P : jsstring -> Prop) (s : jsstring) : Prop :=
  exists pre w post, s = pre ++ w ++ post /\ P w.

(** [s] has no occurrence of the character [c]. *)
Definition free_of (c : char) (s : jsstring) : bool :=
  forallb (fun x => negb (N.eqb x c)) s.

(** [s.includes(sub)] *)
Fixpoint includes (s sub : jsstring) : bool :=
  startsWith s sub ||
  match s with
  | [] => false
  | _ :: s' => includes s' sub
  end.

(** A string that [trim] leaves as it is. *)
Definition is_trimmed (s : jsstring) : bool := str_eqb (trim s) s.

Definition is_none {A : Type} (o : option A) : bool :=
  match o with
  | None => true
  | Some _ => false
  end.

Definition is_nil {A : Type} (l : list A) : bool :=
  match l with
  | _ :: _ => false
  | [] => true
  end.

(** The fields a section of each kind carries, as the four object literals
    of [parsePmap] set them: a text has a non-empty content and nothing
    else; a heading has a content and a level of at least 1; a list has
    items, at least one, and an empty content; an image has a url and an alt
    and an empty content; no literal builds a link. *)
Definition well_formed_section (sec : PmapSection) : bool :=
  match type sec with
  | TText =>
      negb (is_nil (content sec)) && is_none (level sec)
      && is_none (items sec) && is_none (url sec) && is_none (alt sec)
  | THeading =>
      match level sec with
      | Some (S _) => true
      | _ => false
      end
      && is_none (items sec) && is_none (url sec) && is_none (alt sec)
  | TList =>
      is_nil (content sec) && is_none (level sec)
      && match items sec with
         | Some (_ :: _) => true
         | _ => false
         end
      && is_none (url sec) && is_none (alt sec)
  | TImage =>
      is_nil (content sec) && is_none (level sec) && is_none (items sec)
      && negb (is_none (url sec)) && negb (is_none (alt sec))
  | TLink => false
  end.

Definition trimmed_option (o : option jsstring) : bool :=
  match o with
  | Some s => is_trimmed s
  | None => true
  end.

(** Every string of the section is trimmed. *)
Definition trimmed_section (sec : PmapSection) : bool :=
  is_trimmed (content sec)
  && match items sec with
     | Some l => forallb is_trimmed l
     | None => true
     end
  && trimmed_option (url sec) && trimmed_option (alt sec).

(** What the loop keeps true of its state: the sections pushed so far are
    well formed and trimmed, and so are the pending items and the
    metadata. *)
Definition state_well_formed (st : loop_state) : Prop :=
  forallb well_formed_section (sections (result st)) = true /\
  forallb trimmed_section (sections (result st)) = true /\
  currentList st <> Some [] /\
  forallb is_trimmed (pending st) = true /\
  trimmed_option (title (result st)) = true /\
  trimmed_option (description (result st)) = true.

(** A line with something on it besides white space. *)
Definition nonblank (line : jsstring) : bool := negb (is_nil (trim line)).

(** The sections pushed, counting the pending list as one to come. *)
Definition sections_due (st : loop_state) : nat :=
  length (sections (result st))
  + match currentList st with
    | Some _ => 1
    | None => 0
    end.

(** A paragraph line: not blank and with none of the three markers. *)
Definition is_paragraph (line : jsstring) : bool :=
  nonblank line
  && negb (startsWith (trim line) (lit "#"))
  && negb (startsWith (trim line) (lit "[image:"))
  && negb (startsWith (trim line) (lit "-")).

(** The text with every line feed preceded by a carriage return. *)
Definition to_crlf (s : jsstring) : jsstring :=
  flat_map (fun c => if N.eqb c LF then [13%N; LF] else [c]) s.

(** * Properties *)

(** ** Strings *)

Section StringFacts.

Lemma trimStart_spaces (w s : jsstring) :
  forallb is_space w = true -> trimStart (w ++ s) = trimStart s.
Proof.
  induction w as [|c w IH]; simpl; [reflexivity|].
  intros H. apply andb_true_iff in H as [Hc Hw].
  now rewrite Hc, IH.
Qed.

Lemma trim_spaces_l (w s : jsstring) :
  forallb is_space w = true -> trim (w ++ s) = trim s.
Proof.
  intros H. unfold trim. now rewrite trimStart_spaces.
Qed.

Lemma trimStart_all_spaces (w : jsstring) :
  forallb is_space w = true -> trimStart w = [].
Proof.
  intros H. rewrite <- (app_nil_r w). now rewrite trimStart_spaces.
Qed.

Lemma trim_all_spaces (w : jsstring) :
  forallb is_space w = true -> trim w = [].
Proof.
  intros H. unfold trim. now rewrite trimStart_all_spaces.
Qed.

(** Every string splits into its leading white space and a rest that is
    empty or starts with another character. *)
Lemma leading_spaces (s : jsstring) :
  exists w s', s = w ++ s' /\ forallb is_space w = true /\
               (s' = [] \/ exists a s'', s' = a :: s'' /\ is_space a = false).
Proof.
  induction s as [|c s (w & s' & -> & Hw & Hs')].
  - exists [], []. auto.
  - destruct (is_space c) eqn:Hc.
    + exists (c :: w), s'. simpl. rewrite Hc, Hw. auto.
    + exists [], (c :: w ++ s'). simpl. split; [reflexivity|].
      split; [reflexivity|]. right. eauto.
Qed.

Lemma str_eqb_eq (a b : jsstring) : str_eqb a b = true <-> a = b.
Proof.
  revert b. induction a as [|x a IH]; intros [|y b]; simpl;
    try (split; [discriminate | congruence]); [tauto|].
  rewrite andb_true_iff, N.eqb_eq, IH.
  split; [intros [-> ->]; reflexivity | intros [= -> ->]; auto].
Qed.

Lemma startsWith_app (p s : jsstring) : startsWith (p ++ s) p = true.
Proof.
  induction p as [|y p IH]; simpl; [reflexivity|].
  now rewrite N.eqb_refl, IH.
Qed.

Lemma startsWith_prefix (s p : jsstring) :
  startsWith s p = true -> exists s', s = p ++ s'.
Proof.
  revert s. induction p as [|y p IH]; intros s H; simpl in *.
  - now exists s.
  - destruct s as [|x s]; [discriminate|].
    apply andb_true_iff in H as [Hx Hs]. apply N.eqb_eq in Hx as ->.
    destruct (IH _ Hs) as [s' ->]. now exists s'.
Qed.

End StringFacts.

(** ** The matcher *)

Section MatcherFacts.

Variable R : Type.
Implicit Types (k : cont R) (p : char -> bool) (s w : jsstring).

Lemma consumed_app w s : consumed (w ++ s) s = w.
Proof.
  unfold consumed. rewrite length_app.
  replace (length w + length s - length s) with (length w) by lia.
  rewrite firstn_app, firstn_all, Nat.sub_diag. simpl. apply app_nil_r.
Qed.

Lemma strip_prefix_app w s : strip_prefix w (w ++ s) = Some s.
Proof.
  induction w as [|c w IH]; simpl; [reflexivity|].
  now rewrite N.eqb_refl.
Qed.

Lemma strip_prefix_sound w s s' :
  strip_prefix w s = Some s' -> s = w ++ s'.
Proof.
  revert s. induction w as [|y w IH]; intros s H; simpl in *.
  - congruence.
  - destruct s as [|x s]; [discriminate|].
    destruct (N.eqb x y) eqn:E; [|discriminate].
    apply N.eqb_eq in E as ->. now rewrite (IH _ H).
Qed.

(** A success of the repetition further on is the result here. *)
Lemma star_run p w s caps k res :
  forallb p w = true ->
  star p s caps k = Some res ->
  star p (w ++ s) caps k = Some res.
Proof.
  induction w as [|c w IH]; simpl; [auto|].
  intros H Hs. apply andb_true_iff in H as [Hc Hw].
  now rewrite Hc, (IH Hw Hs).
Qed.

Lemma star_stop p c s caps k :
  p c = false -> star p (c :: s) caps k = k (c :: s) caps.
Proof. intros H. simpl. now rewrite H. Qed.

Lemma star_back p c s caps k :
  p c = true -> star p s caps k = None ->
  star p (c :: s) caps k = k (c :: s) caps.
Proof. intros H Hs. simpl. now rewrite H, Hs. Qed.

Lemma star_sound p s caps k res :
  star p s caps k = Some res ->
  exists w s', s = w ++ s' /\ forallb p w = true /\ k s' caps = Some res.
Proof.
  induction s as [|c s IH]; simpl; intros H.
  - exists [], []. auto.
  - destruct (p c) eqn:Hc.
    + destruct (star p s caps k) as [r|] eqn:Hs.
      * injection H as ->.
        destruct (IH eq_refl) as (w & s' & -> & Hw & Hk).
        exists (c :: w), s'. simpl. rewrite Hc, Hw. auto.
      * exists [], (c :: s). auto.
    + exists [], (c :: s). auto.
Qed.

(** With a continuation that accepts everywhere the repetition takes the
    longest run. *)
Lemma star_longest p w s caps k :
  forallb p w = true ->
  (forall s' c', k s' c' <> None) ->
  (s = [] \/ exists c s', s = c :: s' /\ p c = false) ->
  star p (w ++ s) caps k = k s caps.
Proof.
  intros Hw Hk Hs.
  assert (E : star p s caps k = k s caps).
  { destruct Hs as [-> | (c & s' & -> & Hc)]; [reflexivity|].
    now apply star_stop. }
  destruct (k s caps) as [res|] eqn:Hres; [|now elim (Hk s caps)].
  now apply star_run.
Qed.

End MatcherFacts.

(** Soundness of the matcher: a result comes from a word of the pattern's
    language at the start of the input, the continuation taking over after
    it with the captures of that word. *)
Lemma rmatch_sound (R : Type) (r : regex) :
  forall (s : jsstring) (caps : captures) (k : cont R) (res : R),
    rmatch r s caps k = Some res ->
    exists w s' caps',
      s = w ++ s' /\ lang r w caps caps' /\ k s' caps' = Some res.
Proof.
  induction r as [u | p | p | r1 IH1 r2 IH2 | r1 IH1 | n r1 IH1];
    intros s caps k res H; simpl in H.
  - destruct (strip_prefix u s) as [s'|] eqn:E; [|discriminate].
    apply strip_prefix_sound in E. exists u, s', caps. simpl. auto.
  - apply star_sound in H as (w & s' & -> & Hw & Hk).
    exists w, s', caps. simpl. auto.
  - destruct s as [|c s]; [discriminate|].
    destruct (p c) eqn:Hc; [|discriminate].
    apply star_sound in H as (w & s' & -> & Hw & Hk).
    exists (c :: w), s', caps. simpl. rewrite Hc, Hw.
    repeat split; auto. discriminate.
  - apply IH1 in H as (w1 & s1 & c1 & -> & L1 & H).
    apply IH2 in H as (w2 & s2 & c2 & -> & L2 & H).
    exists (w1 ++ w2), s2, c2. rewrite app_assoc. simpl.
    repeat split; auto. exists w1, w2, c1. auto.
  - match type of H with
    | match ?m with _ => _ end = _ => destruct m as [x|] eqn:E
    end.
    + injection H as ->.
      apply IH1 in E as (w & s' & c' & -> & L & E).
      destruct (Nat.eqb (length s') (length (w ++ s'))) eqn:El;
        [discriminate|].
      exists w, s', c'. simpl. repeat split; auto. right. split; auto.
      intros ->. simpl in El. now rewrite Nat.eqb_refl in El.
    + exists [], s, caps. simpl. auto.
  - apply IH1 in H as (w & s' & c' & -> & L & H).
    rewrite consumed_app in H.
    exists w, s', (set_cap n w c'). simpl. repeat split; auto.
    exists c'. auto.
Qed.

Lemma exec_at_sound (r : regex) (s : jsstring) (m : match_result) :
  exec_at r s = Some m ->
  exists s', s = m_text m ++ s' /\ lang r (m_text m) [] (m_caps m).
Proof.
  unfold exec_at. intros H.
  apply rmatch_sound in H as (w & s' & c' & -> & L & H).
  injection H as <-. simpl. rewrite consumed_app. eauto.
Qed.

Lemma search_sound (r : regex) (s : jsstring) (m : match_result) :
  search r s = Some m ->
  exists pre s', s = pre ++ s' /\ exec_at r s' = Some m.
Proof.
  induction s as [|c s IH]; simpl; intros H.
  - destruct (exec_at r []) eqn:E; [|discriminate].
    injection H as ->. exists [], []. auto.
  - destruct (exec_at r (c :: s)) eqn:E.
    + injection H as ->. exists [], (c :: s). auto.
    + destruct (IH H) as (pre & s' & -> & E'). exists (c :: pre), s'. auto.
Qed.

Lemma search_first (r : regex) (s : jsstring) (m : match_result) :
  exec_at r s = Some m -> search r s = Some m.
Proof. intros H. destruct s; simpl; now rewrite H. Qed.

(** Where the pattern matches nowhere the global replacement copies the
    input. *)
Lemma replace_all_no_match (r : regex) (tpl : list tpl_item) (s : jsstring) :
  (forall pre s', s = pre ++ s' -> exec_at r s' = None) ->
  replace_all r tpl s = s.
Proof.
  unfold replace_all. induction s as [|c s IH]; intros H; simpl.
  - now rewrite (H [] []).
  - rewrite (H [] (c :: s)) by reflexivity. f_equal.
    apply IH. intros pre s' ->. apply (H (c :: pre)). reflexivity.
Qed.

(** ** The image pattern *)

(** Group 1 of the image pattern takes part in every match, so [match[1]]
    is a string whenever [match] is not [null]. *)
Lemma image_re_lang (w : jsstring) (c : captures) :
  lang image_re w [] c ->
  exists u, u <> [] /\ forallb not_pipe u = true /\
            (c = set_cap 1 u [] \/
             exists a, a <> [] /\ forallb dot a = true /\
                       c = set_cap 2 a (set_cap 1 u [])).
Proof.
  unfold image_re, image_url_re, image_close_re, image_alt_re. simpl.
  intros (w1 & w2 & c1 & -> & [-> ->] & w3 & w4 & c2 & -> & [_ ->]
          & w5 & w6 & c3 & -> & (c4 & (Hne & Hnp & ->) & ->)
          & w7 & w8 & c5 & -> & [_ ->] & w9 & w10 & c6 & -> & Hopt
          & [-> ->]).
  exists w5. repeat split; auto.
  destruct Hopt as [[-> ->] | [_ Hopt]]; [now left|].
  destruct Hopt as (x1 & x2 & d1 & -> & [-> ->] & x3 & x4 & d2 & ->
                    & [_ ->] & d3 & (Hne2 & Hdot & ->) & ->).
  right. exists x4. auto.
Qed.

Lemma image_cap1 (t : jsstring) (m : match_result) :
  search image_re t = Some m -> exists u, cap 1 (m_caps m) = Some u.
Proof.
  intros H. apply search_sound in H as (pre & s' & -> & H).
  apply exec_at_sound in H as (s'' & _ & L).
  apply image_re_lang in L as (u & _ & _ & [-> | (a & _ & _ & ->)]);
    exists u; reflexivity.
Qed.

(** ** One iteration of the loop *)

Lemma body_total (i : nat) (line : jsstring) (st : loop_state) :
  exists st', body i line st = Returned st'.
Proof.
  unfold body.
  destruct (trim line) as [|c t] eqn:Et; [eauto|].
  destruct (str_eqb (c :: t) (lit "---") && Nat.eqb i 0); [eauto|].
  destruct (str_eqb (c :: t) (lit "---") && inMetadata st); [eauto|].
  destruct (inMetadata st).
  { destruct (startsWith (c :: t) (lit "title:")); [eauto|].
    destruct (startsWith (c :: t) (lit "description:")); eauto. }
  destruct (startsWith (c :: t) (lit "#")); [eauto|].
  destruct (startsWith (c :: t) (lit "[image:")).
  { destruct (search image_re (c :: t)) as [m|] eqn:Em; [|eauto].
    destruct (image_cap1 _ _ Em) as [u ->]. eauto. }
  destruct (startsWith (c :: t) (lit "-")); eauto.
Qed.

Lemma scan_total (lines : list jsstring) :
  forall i st, exists st', scan lines i st = Returned st'.
Proof.
  induction lines as [|l ls IH]; intros i st; simpl; [eauto|].
  destruct (body_total i l st) as [st1 ->]. simpl. apply IH.
Qed.

Lemma scan_app (l1 l2 : list jsstring) :
  forall i st,
    scan (l1 ++ l2) i st = bind (scan l1 i st) (scan l2 (i + length l1)).
Proof.
  induction l1 as [|l l1 IH]; intros i st; simpl.
  - now rewrite Nat.add_0_r.
  - destruct (body i l st) as [st1|e]; simpl; [|reflexivity].
    rewrite IH. now rewrite Nat.add_succ_r.
Qed.

(** The counter loop and the traversal of the lines agree: from index [i]
    the loop needs one test per remaining line and one to leave. *)
Lemma for_loop_scan (pre rest : list jsstring) :
  forall (st : loop_state) (extra : nat),
    for_loop (S (length rest) + extra) (pre ++ rest) (length pre) st
    = Some (scan rest (length pre) st).
Proof.
  revert pre. induction rest as [|l rest IH]; intros pre st extra.
  - simpl. rewrite app_nil_r, Nat.ltb_irrefl. reflexivity.
  - cbn [for_loop length Nat.add scan].
    replace (length pre <? length (pre ++ l :: rest)) with true
      by (symmetry; apply Nat.ltb_lt; rewrite length_app; simpl; lia).
    rewrite nth_error_app2, Nat.sub_diag by lia. cbn [nth_error].
    destruct (body (length pre) l st) as [st1|e]; simpl; [|reflexivity].
    specialize (IH (pre ++ [l]) st1 extra).
    rewrite <- app_assoc, length_app in IH. simpl in IH.
    rewrite Nat.add_1_r in IH. exact IH.
Qed.

(** *** The branches of the body, one equation each *)

Section BodyBranches.

Variables (i : nat) (line : jsstring) (st : loop_state).

Lemma body_blank :
  trim line = [] -> body i line st = Returned (flush_list st).
Proof. intros H. unfold body. now rewrite H. Qed.

Lemma body_open_metadata :
  trim line = lit "---" -> i = 0 ->
  body i line st = Returned (set_inMetadata true st).
Proof. intros H ->. unfold body. now rewrite H. Qed.


(** Inside the metadata block every line that is not blank and not the
    delimiter goes through the two prefix tests. *)
Lemma body_metadata :
  inMetadata st = true -> trim line <> [] -> trim line <> lit "---" ->
  body i line st =
    Returned
      (if startsWith (trim line) (lit "title:") then
         set_title (trim (substring (trim line) 6)) st
       else if startsWith (trim line) (lit "description:") then
         set_description (trim (substring (trim line) 12)) st
       else st).
Proof.
  intros Hm Hne Hd. unfold body.
  destruct (trim line) as [|c t] eqn:Et; [contradiction|].
  replace (str_eqb (c :: t) (lit "---")) with false.
  2:{ symmetry. apply not_true_is_false. now rewrite str_eqb_eq. }
  rewrite Hm. simpl andb. cbv iota.
  destruct (startsWith (c :: t) (lit "title:")); [reflexivity|].
  destruct (startsWith (c :: t) (lit "description:")); reflexivity.
Qed.

(** Outside the metadata block a line starting with [-] is a list item,
    unless it is the [---] of index 0. *)
Lemma body_list_item :
  inMetadata st = false ->
  startsWith (trim line) (lit "-") = true ->
  (i = 0 -> trim line <> lit "---") ->
  body i line st =
    Returned (push_item (trim (substring (trim line) 1)) st).
Proof.
  intros Hm Hs Hi. unfold body.
  apply startsWith_prefix in Hs as [t Et]. rewrite Et in *. simpl app in *.
  rewrite Hm, andb_false_r.
  match goal with
  | |- context [str_eqb ?a ?b && Nat.eqb i 0] =>
      destruct (str_eqb a b && Nat.eqb i 0) eqn:E
  end.
  - apply andb_true_iff in E as [E1 E2].
    apply str_eqb_eq in E1. apply Nat.eqb_eq in E2. now elim (Hi E2).
  - reflexivity.
Qed.

(** The heading level is the length of the run of [#]. *)
Lemma heading_level_run (n : nat) (rest : jsstring) :
  startsWith rest (lit "#") = false ->
  heading_level (repeat HASH (S n) ++ rest) = S n.
Proof.
  intros Hr. unfold heading_level, exec_at, heading_re.
  cbn [rmatch repeat app]. change (is_hash HASH) with true. cbv iota.
  rewrite star_longest.
  - cbn [m_text]. change (HASH :: repeat HASH n ++ rest)
      with (repeat HASH (S n) ++ rest).
    rewrite consumed_app, repeat_length. reflexivity.
  - clear. induction n; simpl; auto.
  - discriminate.
  - destruct rest as [|c r]; [now left|]. right. exists c, r.
    split; [reflexivity|]. simpl in Hr. unfold is_hash.
    now rewrite andb_true_r in Hr.
Qed.

Lemma body_heading (n : nat) (rest : jsstring) :
  inMetadata st = false ->
  trim line = repeat HASH (S n) ++ rest ->
  startsWith rest (lit "#") = false ->
  body i line st =
    Returned (push (heading_section (trim rest) (S n)) (flush_list st)).
Proof.
  intros Hm Et Hr. unfold body. rewrite Et, Hm.
  cbn [repeat app]. rewrite andb_false_r.
  change (str_eqb (HASH :: repeat HASH n ++ rest) (lit "---")) with false.
  change (startsWith (HASH :: repeat HASH n ++ rest) (lit "#")) with true.
  cbv iota. cbn [andb].
  change (HASH :: repeat HASH n ++ rest) with (repeat HASH (S n) ++ rest).
  rewrite heading_level_run by assumption.
  unfold substring. rewrite skipn_app, repeat_length, Nat.sub_diag.
  rewrite skipn_all2 by (rewrite repeat_length; lia).
  reflexivity.
Qed.

(** A line that starts with [[image:], outside the metadata block. *)
Lemma body_image (rest : jsstring) :
  inMetadata st = false ->
  trim line = lit "[image:" ++ rest ->
  body i line st =
    match search image_re (trim line) with
    | Some m =>
        match cap 1 (m_caps m) with
        | Some u =>
            Returned (push (image_section (trim u) (alt_of m))
                        (flush_list st))
        | None => Thrown TypeError
        end
    | None => Returned (flush_list st)
    end.
Proof.
  intros Hm Et. unfold body. rewrite Et, Hm. reflexivity.
Qed.

(** The fallback: a paragraph. *)
Lemma body_text :
  inMetadata st = false ->
  trim line <> [] ->
  startsWith (trim line) (lit "#") = false ->
  startsWith (trim line) (lit "[image:") = false ->
  startsWith (trim line) (lit "-") = false ->
  body i line st =
    Returned (push (text_section (trim line)) (flush_list st)).
Proof.
  intros Hm Hne H1 H2 H3. unfold body.
  destruct (trim line) as [|c t] eqn:Et; [contradiction|].
  rewrite Hm, H1, H2, H3, andb_false_r.
  replace (str_eqb (c :: t) (lit "---")) with false; [reflexivity|].
  symmetry. apply not_true_is_false. rewrite str_eqb_eq. intros E.
  rewrite E in H3. discriminate.
Qed.

End BodyBranches.

(** ** The image pattern on lines of the shape [[image: URL | ALT]]

    The matcher is followed along its first successful path: every
    alternative it tries before fails whatever the continuation is. *)

Section ImageShape.

Variable R : Type.
Implicit Types (k : cont R) (p : char -> bool) (s w : jsstring).

Lemma rmatch_opt_take (r : regex) s caps k res :
  rmatch r s caps
    (fun s' c' => if Nat.eqb (length s') (length s) then None else k s' c')
  = Some res ->
  rmatch (ROpt r) s caps k = Some res.
Proof. intros H. simpl. now rewrite H. Qed.

(** [(?:\|\s*(.+))?\]] on a closing bracket: the option is skipped. *)
Lemma image_close_bracket s caps k :
  rmatch image_close_re (RBRACKET :: s) caps k = k s caps.
Proof. reflexivity. Qed.

(** [([^\|]+)\s*(?:...)?\]] on [u]], [u] without [|]: group 1 takes [u]. *)
Lemma image_url_plain (u : jsstring) caps k res :
  u <> [] -> forallb not_pipe u = true ->
  k [] (set_cap 1 u caps) = Some res ->
  rmatch image_url_re (u ++ [RBRACKET]) caps k = Some res.
Proof.
  intros Hne Hu Hk. destruct u as [|a u]; [contradiction|].
  simpl in Hu. apply andb_true_iff in Hu as [Ha Hu].
  unfold image_url_re. cbn [rmatch app]. rewrite Ha.
  apply star_run; [assumption|].
  rewrite star_back; [|reflexivity|reflexivity].
  rewrite star_stop by reflexivity. rewrite image_close_bracket.
  change (a :: u ++ [RBRACKET]) with ((a :: u) ++ [RBRACKET]).
  now rewrite consumed_app.
Qed.

(** [\s*([^\|]+)\s*(?:...)?\]] on [u]]: [match[1]] trims to what [u] trims
    to. *)
Lemma image_plain (u : jsstring) :
  u <> [] -> forallb not_pipe u = true ->
  exists u1, trim u1 = trim u /\
    forall caps k res,
      k [] (set_cap 1 u1 caps) = Some res ->
      rmatch (RStar is_space +++ image_url_re)%re (u ++ [RBRACKET]) caps k
      = Some res.
Proof.
  intros Hne Hu.
  destruct (leading_spaces u)
    as (w & u' & -> & Hw & [-> | (a & u'' & -> & Ha)]).
  - rewrite app_nil_r in *.
    destruct (exists_last Hne) as (w0 & c & ->).
    rewrite forallb_app in Hw, Hu. simpl in Hw, Hu.
    apply andb_true_iff in Hw as [Hw0 Hc], Hu as [_ Hpc].
    rewrite !andb_true_r in *.
    exists [c]. split.
    { rewrite !trim_all_spaces; auto.
      - rewrite forallb_app; simpl. now rewrite Hw0, Hc.
      - simpl. now rewrite Hc. }
    intros caps k res Hk. cbn [rmatch]. rewrite <- app_assoc.
    apply star_run; [assumption|]. cbn [app].
    rewrite star_back; [| assumption |].
    + apply (image_url_plain [c]); simpl; try rewrite Hpc; auto.
      discriminate.
    + rewrite star_stop by reflexivity. reflexivity.
  - exists (a :: u''). split; [now rewrite trim_spaces_l|].
    rewrite forallb_app in Hu. apply andb_true_iff in Hu as [_ Hu].
    intros caps k res Hk. cbn [rmatch]. rewrite <- app_assoc.
    apply star_run; [assumption|]. cbn [app].
    rewrite star_stop by assumption.
    apply (image_url_plain (a :: u'')); auto. discriminate.
Qed.

(** [\|\s*(.+)] on [|A]], [A] without line terminators: group 2 takes [A]
    less its leading white space, or one white space when [A] is nothing
    else. [kk] is the continuation the option gives its body. *)
Lemma image_alt_body (A : jsstring) :
  A <> [] -> forallb dot A = true ->
  exists a1, trim a1 = trim A /\
    forall caps (kk : cont R) res,
      (forall c, kk [] c = None) ->
      kk [RBRACKET] (set_cap 2 a1 caps) = Some res ->
      rmatch image_alt_re (PIPE :: A ++ [RBRACKET]) caps kk = Some res.
Proof.
  intros Hne Hd.
  destruct (leading_spaces A)
    as (w & A' & -> & Hw & [-> | (a & A'' & -> & Ha)]).
  - rewrite app_nil_r in *.
    destruct (exists_last Hne) as (w0 & c & ->).
    rewrite forallb_app in Hw, Hd. simpl in Hw, Hd.
    apply andb_true_iff in Hw as [Hw0 Hc], Hd as [_ Hdc].
    rewrite !andb_true_r in *.
    exists [c]. split.
    { rewrite !trim_all_spaces; auto.
      - rewrite forallb_app; simpl. now rewrite Hw0, Hc.
      - simpl. now rewrite Hc. }
    intros caps kk res Hnil Hk. unfold image_alt_re.
    change (lit "|") with [PIPE]. cbn [rmatch strip_prefix].
    rewrite N.eqb_refl, <- app_assoc.
    apply star_run; [assumption|]. cbn [app].
    rewrite star_back; [| assumption |].
    + rewrite Hdc. rewrite star_back; [exact Hk | reflexivity |].
      cbn [star]. apply Hnil.
    + rewrite star_stop by reflexivity.
      change (dot RBRACKET) with true. cbn [star]. apply Hnil.
  - exists (a :: A''). split; [now rewrite trim_spaces_l|].
    rewrite forallb_app in Hd. apply andb_true_iff in Hd as [_ Hd].
    simpl in Hd. apply andb_true_iff in Hd as [Hda Hd].
    intros caps kk res Hnil Hk. unfold image_alt_re.
    change (lit "|") with [PIPE]. cbn [rmatch strip_prefix].
    rewrite N.eqb_refl, <- app_assoc.
    apply star_run; [assumption|]. cbn [app].
    rewrite star_stop by assumption. rewrite Hda.
    apply star_run; [assumption|].
    rewrite star_back; [| reflexivity |].
    + change (a :: A'' ++ [RBRACKET]) with ((a :: A'') ++ [RBRACKET]).
      now rewrite consumed_app.
    + cbn [star]. apply Hnil.
Qed.

Lemma image_alt (A : jsstring) :
  A <> [] -> forallb dot A = true ->
  exists a1, trim a1 = trim A /\
    forall caps k res,
      k [] (set_cap 2 a1 caps) = Some res ->
      rmatch image_close_re (PIPE :: A ++ [RBRACKET]) caps k = Some res.
Proof.
  intros Hne Hd. destruct (image_alt_body A Hne Hd) as (a1 & Ht & H).
  exists a1. split; [assumption|]. intros caps k res Hk.
  unfold image_close_re.
  change (rmatch (ROpt image_alt_re +++ RStr (lit "]"))%re
            (PIPE :: A ++ [RBRACKET]) caps k)
    with (rmatch (ROpt image_alt_re) (PIPE :: A ++ [RBRACKET]) caps
            (fun s' c' => rmatch (RStr (lit "]")) s' c' k)).
  apply rmatch_opt_take, H.
  - intros c. now destruct (Nat.eqb _ _).
  - replace (Nat.eqb (length [RBRACKET])
               (length (PIPE :: A ++ [RBRACKET]))) with false; [exact Hk|].
    symmetry. apply Nat.eqb_neq. simpl. rewrite length_app. simpl. lia.
Qed.

Lemma image_url_alt (u A : jsstring) :
  u <> [] -> forallb not_pipe u = true ->
  A <> [] -> forallb dot A = true ->
  exists a1, trim a1 = trim A /\
    forall caps k res,
      k [] (set_cap 2 a1 (set_cap 1 u caps)) = Some res ->
      rmatch image_url_re (u ++ PIPE :: A ++ [RBRACKET]) caps k = Some res.
Proof.
  intros Hne Hu HA Hd. destruct (image_alt A HA Hd) as (a1 & Ht & H).
  exists a1. split; [assumption|]. intros caps k res Hk.
  destruct u as [|a u]; [contradiction|].
  simpl in Hu. apply andb_true_iff in Hu as [Ha Hu].
  unfold image_url_re. cbn [rmatch app]. rewrite Ha.
  apply star_run; [assumption|].
  rewrite star_stop by reflexivity. rewrite star_stop by reflexivity.
  change (a :: u ++ PIPE :: A ++ [RBRACKET])
    with ((a :: u) ++ PIPE :: A ++ [RBRACKET]).
  rewrite consumed_app. now apply H.
Qed.

Lemma image_with_alt (U A : jsstring) :
  U <> [] -> forallb not_pipe U = true ->
  A <> [] -> forallb dot A = true ->
  exists u1 a1, trim u1 = trim U /\ trim a1 = trim A /\
    forall caps k res,
      k [] (set_cap 2 a1 (set_cap 1 u1 caps)) = Some res ->
      rmatch (RStar is_space +++ image_url_re)%re
        (U ++ PIPE :: A ++ [RBRACKET]) caps k = Some res.
Proof.
  intros Hne Hu HA Hd.
  destruct (leading_spaces U)
    as (w & u' & -> & Hw & [-> | (a & u'' & -> & Ha)]).
  - rewrite app_nil_r in *.
    destruct (exists_last Hne) as (w0 & c & ->).
    rewrite forallb_app in Hw, Hu. simpl in Hw, Hu.
    apply andb_true_iff in Hw as [Hw0 Hc], Hu as [_ Hpc].
    rewrite !andb_true_r in *.
    assert (Hc1 : [c] <> []) by discriminate.
    assert (Hc2 : forallb not_pipe [c] = true) by (simpl; now rewrite Hpc).
    destruct (image_url_alt [c] A Hc1 Hc2 HA Hd) as (a1 & Ht & H).
    exists [c], a1. split; [|split; [assumption|]].
    { rewrite !trim_all_spaces; auto.
      - rewrite forallb_app; simpl. now rewrite Hw0, Hc.
      - simpl. now rewrite Hc. }
    intros caps k res Hk. cbn [rmatch]. rewrite <- app_assoc.
    apply star_run; [assumption|]. cbn [app].
    rewrite star_back; [| assumption |].
    + now apply (H caps k res).
    + rewrite star_stop by reflexivity. reflexivity.
  - rewrite forallb_app in Hu. apply andb_true_iff in Hu as [_ Hu].
    assert (Hc1 : a :: u'' <> []) by discriminate.
    destruct (image_url_alt (a :: u'') A Hc1 Hu HA Hd) as (a1 & Ht & H).
    exists (a :: u''), a1. split; [now rewrite trim_spaces_l|].
    split; [assumption|].
    intros caps k res Hk. cbn [rmatch]. rewrite <- app_assoc.
    apply star_run; [assumption|]. cbn [app].
    rewrite star_stop by assumption.
    now apply (H caps k res).
Qed.
End ImageShape.

Lemma exec_image_plain (U : jsstring) :
  U <> [] -> forallb not_pipe U = true ->
  exists m u1,
    exec_at image_re (lit "[image:" ++ U ++ [RBRACKET]) = Some m /\
    m_caps m = set_cap 1 u1 [] /\ trim u1 = trim U.
Proof.
  intros Hne Hu. destruct (image_plain match_result U Hne Hu) as (u1 & Ht & H).
  eexists _, u1. split; [|split; [|exact Ht]].
  - unfold exec_at, image_re.
    cbn [rmatch]. rewrite strip_prefix_app. apply H. reflexivity.
  - reflexivity.
Qed.

Lemma exec_image_alt (U A : jsstring) :
  U <> [] -> forallb not_pipe U = true ->
  A <> [] -> forallb dot A = true ->
  exists m u1 a1,
    exec_at image_re (lit "[image:" ++ U ++ PIPE :: A ++ [RBRACKET]) = Some m
    /\ m_caps m = set_cap 2 a1 (set_cap 1 u1 []) /\
    trim u1 = trim U /\ trim a1 = trim A.
Proof.
  intros Hne Hu HA Hd.
  destruct (image_with_alt match_result U A Hne Hu HA Hd)
    as (u1 & a1 & Ht & Ht' & H).
  eexists _, u1, a1. split; [|split; [|split; [exact Ht | exact Ht']]].
  - unfold exec_at, image_re.
    cbn [rmatch]. rewrite strip_prefix_app. apply H. reflexivity.
  - reflexivity.
Qed.

Lemma body_image_plain (i : nat) (line : jsstring) (st : loop_state)
      (U : jsstring) :
  inMetadata st = false ->
  trim line = lit "[image:" ++ U ++ [RBRACKET] ->
  U <> [] -> forallb not_pipe U = true ->
  body i line st =
    Returned (push (image_section (trim U) []) (flush_list st)).
Proof.
  intros Hm Et Hne Hu. rewrite (body_image _ _ _ _ Hm Et), Et.
  destruct (exec_image_plain U Hne Hu) as (m & u1 & Hx & Hc & Ht).
  rewrite (search_first _ _ _ Hx). unfold alt_of. rewrite Hc. simpl.
  now rewrite Ht.
Qed.

Lemma body_image_alt (i : nat) (line : jsstring) (st : loop_state)
      (U A : jsstring) :
  inMetadata st = false ->
  trim line = lit "[image:" ++ U ++ PIPE :: A ++ [RBRACKET] ->
  U <> [] -> forallb not_pipe U = true ->
  A <> [] -> forallb dot A = true ->
  body i line st =
    Returned (push (image_section (trim U) (trim A)) (flush_list st)).
Proof.
  intros Hm Et Hne Hu HA Hd. rewrite (body_image _ _ _ _ Hm Et), Et.
  destruct (exec_image_alt U A Hne Hu HA Hd)
    as (m & u1 & a1 & Hx & Hc & Ht & Ht').
  rewrite (search_first _ _ _ Hx). unfold alt_of. rewrite Hc. simpl.
  rewrite Ht, Ht'. now destruct (trim A).
Qed.

(** ** Invariants of the loop *)

(** Every state the body returns is the old one after one of the updates of
    the source, each under the test that guards it. *)
Lemma body_updates (P : loop_state -> Prop) (i : nat) (line : jsstring)
      (st st' : loop_state) :
  body i line st = Returned st' ->
  P (flush_list st) ->
  (i = 0 -> P (set_inMetadata true st)) ->
  (inMetadata st = true -> P (set_inMetadata false st)) ->
  (inMetadata st = true -> P st) ->
  (inMetadata st = true -> forall t, P (set_title t st)) ->
  (inMetadata st = true -> forall d, P (set_description d st)) ->
  (inMetadata st = false ->
   forall sec, is_list_section sec = false -> P (push sec (flush_list st))) ->
  (inMetadata st = false -> forall item, P (push_item item st)) ->
  P st'.
Proof.
  intros H Hflush Hopen Hclose Hskip Htitle Hdesc Hpush Hitem.
  unfold body in H.
  destruct (trim line) as [|c t] eqn:Et; [now injection H as <-|].
  destruct (str_eqb (c :: t) (lit "---") && Nat.eqb i 0) eqn:E0.
  { injection H as <-. apply andb_true_iff in E0 as [_ E0].
    apply Nat.eqb_eq in E0. auto. }
  destruct (str_eqb (c :: t) (lit "---") && inMetadata st) eqn:E1.
  { injection H as <-. apply andb_true_iff in E1 as [_ E1]. auto. }
  destruct (inMetadata st) eqn:Em.
  { destruct (startsWith (c :: t) (lit "title:")); [injection H as <-; auto|].
    destruct (startsWith (c :: t) (lit "description:"));
      injection H as <-; auto. }
  destruct (startsWith (c :: t) (lit "#")).
  { injection H as <-. now apply Hpush. }
  destruct (startsWith (c :: t) (lit "[image:")).
  { destruct (search image_re (c :: t)) as [m|]; [|now injection H as <-].
    destruct (cap 1 (m_caps m)); [|discriminate].
    injection H as <-. now apply Hpush. }
  destruct (startsWith (c :: t) (lit "-")); injection H as <-; auto.
Qed.

Lemma flush_list_none (st : loop_state) :
  currentList st = None -> flush_list st = st.
Proof. unfold flush_list. now intros ->. Qed.

Lemma flush_list_currentList (st : loop_state) :
  currentList (flush_list st) = None.
Proof. unfold flush_list. now destruct (currentList st) eqn:E. Qed.

Lemma flush_list_inMetadata (st : loop_state) :
  inMetadata (flush_list st) = inMetadata st.
Proof. unfold flush_list. now destruct (currentList st). Qed.

Lemma flush_list_sections (st : loop_state) :
  sections (result (flush_list st)) =
    sections (result st) ++
      match currentList st with
      | Some l => [list_section l]
      | None => []
      end.
Proof.
  unfold flush_list. destruct (currentList st); simpl; [reflexivity|].
  now rewrite app_nil_r.
Qed.

Lemma finish_sections (st : loop_state) :
  sections (finish st) = sections (result (flush_list st)).
Proof. unfold finish, flush_list. now destruct (currentList st). Qed.

Lemma lists_nonempty_flush (st : loop_state) :
  lists_nonempty st -> lists_nonempty (flush_list st).
Proof.
  intros [Hs Hc]. split; [|now rewrite flush_list_currentList].
  rewrite flush_list_sections, forallb_app, Hs.
  destruct (currentList st) as [[|x l]|]; [now elim Hc | reflexivity..].
Qed.

Lemma lists_nonempty_body (i : nat) (line : jsstring) (st st' : loop_state) :
  lists_nonempty st -> body i line st = Returned st' -> lists_nonempty st'.
Proof.
  intros Hst H. pose proof (lists_nonempty_flush _ Hst) as Hf.
  apply (body_updates lists_nonempty _ _ _ _ H); auto.
  - intros _ sec Hsec. destruct Hf as [Hs Hc]. split; [|exact Hc].
    simpl. rewrite forallb_app, Hs. simpl.
    unfold nonempty_list_section. unfold is_list_section in Hsec.
    now destruct (type sec).
  - intros _ item. destruct Hst as [Hs Hc]. split; [exact Hs|].
    simpl. destruct (currentList st) as [l|]; [|discriminate].
    intros [= E]. now destruct l.
Qed.

Lemma lists_nonempty_scan (lines : list jsstring) :
  forall i st st',
    lists_nonempty st -> scan lines i st = Returned st' -> lists_nonempty st'.
Proof.
  induction lines as [|l ls IH]; intros i st st' Hst H; simpl in H.
  - now injection H as <-.
  - destruct (body i l st) as [st1|e] eqn:Hb; [|discriminate].
    simpl in H. eapply IH; [|exact H]. eapply lists_nonempty_body; eauto.
Qed.

(** Outside the metadata block and past index 0 the block is never entered
    again and the metadata stay as they are. *)
Lemma body_outside_metadata (i : nat) (line : jsstring)
      (st st' : loop_state) :
  i <> 0 -> inMetadata st = false -> body i line st = Returned st' ->
  inMetadata st' = false /\ title (result st') = title (result st) /\
  description (result st') = description (result st).
Proof.
  intros Hi Hm H.
  apply (body_updates
           (fun s => inMetadata s = false /\
                     title (result s) = title (result st) /\
                     description (result s) = description (result st))
           _ _ _ _ H);
    try (intros E; congruence); auto.
  - rewrite flush_list_inMetadata. unfold flush_list.
    destruct (currentList st); auto.
  - intros _ sec _. simpl. rewrite flush_list_inMetadata. unfold flush_list.
    destruct (currentList st); auto.
Qed.

Lemma scan_outside_metadata (lines : list jsstring) :
  forall i st st',
    i <> 0 -> inMetadata st = false -> scan lines i st = Returned st' ->
    inMetadata st' = false /\ title (result st') = title (result st) /\
    description (result st') = description (result st).
Proof.
  induction lines as [|l ls IH]; intros i st st' Hi Hm H; simpl in H.
  - injection H as <-. auto.
  - destruct (body i l st) as [st1|e] eqn:Hb; [|discriminate].
    simpl in H.
    destruct (body_outside_metadata _ _ _ _ Hi Hm Hb) as (Hm1 & Ht1 & Hd1).
    destruct (IH (S i) st1 st' (Nat.neq_succ_0 i) Hm1 H) as (Hm2 & Ht2 & Hd2).
    split; [exact Hm2|]. split; congruence.
Qed.

Lemma finish_metadata (st : loop_state) :
  title (finish st) = title (result st) /\
  description (finish st) = description (result st).
Proof. unfold finish. destruct (currentList st); auto. Qed.

(** The sections only grow. *)
Lemma body_sections_grow (i : nat) (line : jsstring) (st st' : loop_state) :
  body i line st = Returned st' ->
  exists more, sections (result st') = sections (result st) ++ more.
Proof.
  intros H.
  apply (body_updates
           (fun s => exists more,
                sections (result s) = sections (result st) ++ more)
           _ _ _ _ H); intros; simpl;
    rewrite ?flush_list_sections, <- ?app_assoc; eauto;
    exists []; now rewrite app_nil_r.
Qed.

Lemma scan_sections_grow (lines : list jsstring) :
  forall i st st',
    scan lines i st = Returned st' ->
    exists more, sections (result st') = sections (result st) ++ more.
Proof.
  induction lines as [|l ls IH]; intros i st st' H; simpl in H.
  - injection H as <-. exists []. now rewrite app_nil_r.
  - destruct (body i l st) as [st1|e] eqn:Hb; [|discriminate].
    simpl in H. destruct (IH _ _ _ H) as [m2 E2].
    destruct (body_sections_grow _ _ _ _ Hb) as [m1 E1].
    exists (m1 ++ m2). now rewrite E2, E1, app_assoc.
Qed.

(** ** The metadata block *)

Lemma title_not_description (t : jsstring) :
  startsWith t (lit "title:") = true ->
  startsWith t (lit "description:") = false.
Proof. intros H. apply startsWith_prefix in H as [s' ->]. reflexivity. Qed.

(** The lines of an open metadata block, none of them the delimiter, leave
    the sections alone and give each key its last value. *)
Lemma scan_metadata_block (meta : list jsstring) :
  forall i st,
    i <> 0 -> inMetadata st = true -> currentList st = None ->
    Forall (fun l => trim l <> lit "---") meta ->
    scan meta i st =
      Returned
        {| result :=
             {| title := last_value (lit "title:") meta (title (result st));
                description :=
                  last_value (lit "description:") meta
                    (description (result st));
                sections := sections (result st) |};
           currentList := None;
           inMetadata := true |}.
Proof.
  induction meta as [|l meta IH]; intros i st Hi Hm Hc Hall.
  - destruct st as [[t d s] c m]. simpl in *. now subst.
  - inversion Hall as [|? ? Hl Hall']; subst. cbn [scan last_value].
    destruct (trim l) as [|c t] eqn:Et.
    + rewrite (body_blank _ _ _ Et), flush_list_none by assumption.
      cbn [bind]. rewrite (IH (S i) st) by auto.
      reflexivity.
    + rewrite body_metadata by (rewrite ?Et; auto; discriminate).
      rewrite Et. cbn [bind].
      destruct (startsWith (c :: t) (lit "title:")) eqn:E1.
      * rewrite (title_not_description _ E1).
        rewrite IH by auto. reflexivity.
      * destruct (startsWith (c :: t) (lit "description:")) eqn:E2;
          rewrite IH by auto; reflexivity.
Qed.



(** ** Runs of list items *)

Lemma scan_list_run (run : list jsstring) :
  forall i st,
    inMetadata st = false ->
    Forall (fun l => startsWith (trim l) (lit "-") = true) run ->
    (i = 0 -> hd [] (map trim run) <> lit "---") ->
    scan run i st =
      Returned (fold_left (fun s l => push_item (item_of l) s) run st).
Proof.
  induction run as [|l run IH]; intros i st Hm Hall Hi; [reflexivity|].
  inversion Hall as [|? ? Hl Hall']; subst. cbn [scan fold_left].
  rewrite body_list_item by auto. cbn [bind].
  apply IH; auto. intros [=].
Qed.

Lemma fold_push_items (run : list jsstring) :
  forall st,
    run <> [] ->
    fold_left (fun s l => push_item (item_of l) s) run st =
      {| result := result st;
         currentList := Some (pending st ++ map item_of run);
         inMetadata := inMetadata st |}.
Proof.
  induction run as [|l run IH]; intros st Hne; [contradiction|].
  cbn [fold_left]. destruct run as [|l' run].
  - unfold push_item, pending. simpl. now destruct (currentList st).
  - rewrite IH by discriminate. unfold push_item, pending at 1. simpl.
    f_equal. f_equal. unfold pending.
    destruct (currentList st); simpl; [now rewrite <- app_assoc|reflexivity].
Qed.

(** A line that is not a list item, outside the metadata block: the pending
    list is flushed before at most one section that is not a list. *)
Lemma body_breaker (i : nat) (b : jsstring) (st : loop_state) :
  inMetadata st = false ->
  startsWith (trim b) (lit "-") = false ->
  exists st' extra,
    body i b st = Returned st' /\
    sections (result st') = sections (result (flush_list st)) ++ extra /\
    existsb is_list_section extra = false /\
    currentList st' = None /\ inMetadata st' = false.
Proof.
  intros Hm Hb. unfold body.
  pose proof (flush_list_currentList st) as Hfc.
  pose proof (flush_list_inMetadata st) as Hfm. rewrite Hm in Hfm.
  destruct (trim b) as [|c t] eqn:Et.
  { exists (flush_list st), []. rewrite app_nil_r. auto. }
  assert (E : str_eqb (c :: t) (lit "---") = false).
  { apply not_true_is_false. rewrite str_eqb_eq. intros E.
    rewrite E in Hb. discriminate. }
  rewrite E, Hm, Hb. cbn [andb].
  destruct (startsWith (c :: t) (lit "#")).
  { eexists _, [_]. split; [reflexivity|]. simpl. auto. }
  destruct (startsWith (c :: t) (lit "[image:")).
  { destruct (search image_re (c :: t)) as [m|] eqn:Em.
    - destruct (image_cap1 _ _ Em) as [u ->].
      eexists _, [_]. split; [reflexivity|]. simpl. auto.
    - exists (flush_list st), []. rewrite app_nil_r. auto. }
  eexists _, [_]. split; [reflexivity|]. simpl. auto.
Qed.

(** ** The inline patterns *)

Lemma bold_re_lang (w : jsstring) (c : captures) :
  lang bold_re w [] c ->
  exists x, x <> [] /\ forallb not_star x = true /\
            w = lit "**" ++ x ++ lit "**" /\ c = set_cap 1 x [].
Proof.
  unfold bold_re. simpl.
  intros (w1 & w2 & c1 & -> & [-> ->] & w3 & w4 & c2 & ->
          & (c3 & (Hne & Hx & ->) & ->) & [-> ->]).
  exists w3. auto.
Qed.

Lemma link_re_lang (w : jsstring) (c : captures) :
  lang link_re w [] c ->
  exists t u, t <> [] /\ forallb not_rbracket t = true /\
              u <> [] /\ forallb not_rparen u = true /\
              w = lit "[" ++ t ++ lit "](" ++ u ++ lit ")" /\
              c = set_cap 2 u (set_cap 1 t []).
Proof.
  unfold link_re. simpl.
  intros (w1 & w2 & c1 & -> & [-> ->] & w3 & w4 & c2 & ->
          & (c3 & (Hne & Ht & ->) & ->) & w5 & w6 & c4 & -> & [-> ->]
          & w7 & w8 & c5 & -> & (c6 & (Hne' & Hu & ->) & ->) & [-> ->]).
  exists w3, w7. repeat split; auto.
Qed.

Lemma exec_bold_span (s : jsstring) (m : match_result) :
  exec_at bold_re s = Some m ->
  exists s', s = m_text m ++ s' /\ bold_span (m_text m).
Proof.
  intros H. apply exec_at_sound in H as (s' & E & L).
  apply bold_re_lang in L as (x & Hne & Hx & Ew & _).
  exists s'. split; [assumption|]. exists x. auto.
Qed.

Lemma exec_link_span (s : jsstring) (m : match_result) :
  exec_at link_re s = Some m ->
  exists s' t u,
    s = m_text m ++ s' /\
    t <> [] /\ forallb not_rbracket t = true /\
    u <> [] /\ forallb not_rparen u = true /\
    m_text m = lit "[" ++ t ++ lit "](" ++ u ++ lit ")" /\
    m_caps m = set_cap 2 u (set_cap 1 t []).
Proof.
  intros H. apply exec_at_sound in H as (s' & E & L).
  apply link_re_lang in L as (t & u & H1 & H2 & H3 & H4 & H5 & H6).
  exists s', t, u. auto 10.
Qed.

Lemma free_of_app (c : char) (a b : jsstring) :
  free_of c (a ++ b) = free_of c a && free_of c b.
Proof. apply forallb_app. Qed.

Lemma bold_span_star (s : jsstring) :
  contains bold_span s -> free_of STAR s = false.
Proof.
  intros (pre & w & post & -> & x & _ & _ & ->).
  rewrite !free_of_app. simpl. apply andb_false_r.
Qed.

Lemma includes_app (pre w post : jsstring) :
  includes (pre ++ w ++ post) w = true.
Proof.
  induction pre as [|c pre IH].
  - cbn [app]. destruct (w ++ post) eqn:E; cbn [includes];
      rewrite <- E, startsWith_app; reflexivity.
  - cbn [app includes]. rewrite IH. apply orb_true_r.
Qed.

Lemma bold_span_includes (s : jsstring) :
  contains bold_span s -> includes s (lit "**") = true.
Proof.
  intros (pre & w & post & -> & x & _ & _ & ->).
  rewrite <- !app_assoc. apply includes_app.
Qed.

Lemma link_span_bracket (s : jsstring) :
  contains link_span s -> free_of LBRACKET s = false.
Proof.
  intros (pre & w & post & -> & t & u & _ & _ & _ & _ & ->).
  rewrite !free_of_app. simpl. apply andb_false_r.
Qed.

(** Two runs of a class that stop at the same character are the same run. *)
Lemma run_unique (p : char -> bool) (c : char) (a b x y : jsstring) :
  forallb p a = true -> forallb p b = true -> p c = false ->
  a ++ c :: x = b ++ c :: y -> a = b /\ x = y.
Proof.
  intros Ha Hb Hc. revert b Hb.
  induction a as [|a0 a IH]; intros [|b0 b] Hb E; simpl in *.
  - injection E as ->. auto.
  - injection E as <- _. apply andb_true_iff in Hb as [Hb _]. congruence.
  - injection E as -> _. apply andb_true_iff in Ha as [Ha _]. congruence.
  - injection E as -> E.
    apply andb_true_iff in Ha as [_ Ha], Hb as [_ Hb].
    destruct (IH Ha b Hb E) as [-> ->]. auto.
Qed.

(** The one occurrence of a character is found where it is. *)
Lemma only_occurrence (c : char) (pre x p' y : jsstring) :
  free_of c pre = true -> free_of c x = true ->
  pre ++ c :: x = p' ++ c :: y -> p' = pre /\ y = x.
Proof.
  intros Hpre Hx. revert p'.
  induction pre as [|a pre IH]; intros [|b p'] E; simpl in *.
  - injection E as ->. auto.
  - injection E as _ E. rewrite E, free_of_app in Hx. simpl in Hx.
    rewrite N.eqb_refl, andb_false_r in Hx. discriminate.
  - injection E as -> _. rewrite N.eqb_refl in Hpre. discriminate.
  - injection E as -> E. apply andb_true_iff in Hpre as [_ Hpre].
    destruct (IH Hpre p' E) as [-> ->]. auto.
Qed.

(** Text without [*] in which the link pattern matches at no [[] goes
    through both replacements as it is. *)
Lemma inline_unchanged (s : jsstring) :
  free_of STAR s = true ->
  (forall p' y, s = p' ++ LBRACKET :: y ->
                exec_at link_re (LBRACKET :: y) = None) ->
  processInlineMarkup s = s.
Proof.
  intros Hstar Hlink. unfold processInlineMarkup.
  rewrite (replace_all_no_match bold_re bold_tpl s).
  - apply replace_all_no_match. intros pre s' ->.
    destruct (exec_at link_re s') as [m|] eqn:E; [|reflexivity].
    pose proof E as E'.
    apply exec_link_span in E' as (s'' & t & u & Es & _ & _ & _ & _ & Em & _).
    rewrite Em in Es. rewrite Es in E. simpl in Es, E.
    rewrite (Hlink pre _) in E; [discriminate|]. now rewrite Es.
  - intros pre s' ->.
    destruct (exec_at bold_re s') as [m|] eqn:E; [|reflexivity].
    apply exec_bold_span in E as (s'' & Es & Hb).
    rewrite (bold_span_star (pre ++ s')) in Hstar; [discriminate|].
    exists pre, (m_text m), s''. now rewrite <- Es.
Qed.

(** At a [[]] the link pattern fails: the label would be empty. *)
Lemma link_empty_label (rest : jsstring) :
  exec_at link_re (lit "[]" ++ rest) = None.
Proof. reflexivity. Qed.

(** At [[t]()] it fails too: the address would be empty. *)
Lemma link_empty_url (t rest : jsstring) :
  forallb not_rbracket t = true ->
  exec_at link_re (lit "[" ++ t ++ lit "]()" ++ rest) = None.
Proof.
  intros Ht.
  destruct (exec_at link_re (lit "[" ++ t ++ lit "]()" ++ rest)) as [m|] eqn:E;
    [|reflexivity].
  apply exec_link_span in E
      as (s' & t' & u & Es & _ & Ht' & Hne & Hu & Em & _).
  rewrite Em in Es. simpl in Es. injection Es as Es.
  rewrite <- !app_assoc in Es. simpl in Es.
  apply (run_unique not_rbracket) in Es as [_ Es]; auto.
  injection Es as Es. destruct u as [|c u]; [contradiction|].
  simpl in Es, Hu. injection Es as <- _. discriminate.
Qed.

(** ** One replacement after the other *)

Lemma replace_from_skip (r : regex) (tpl : list tpl_item) (w s : jsstring) :
  replace_from r tpl (w ++ s) (length w) = replace_from r tpl s 0.
Proof. induction w as [|c w IH]; [reflexivity | exact IH]. Qed.

(** At a match the replacement is emitted and the scan goes on behind it. *)
Lemma replace_all_match (r : regex) (tpl : list tpl_item) (w s : jsstring)
      (m : match_result) :
  w <> [] -> exec_at r (w ++ s) = Some m -> m_text m = w ->
  replace_all r tpl (w ++ s) = expand tpl m ++ replace_all r tpl s.
Proof.
  intros Hne Hx Hm. destruct w as [|c w]; [contradiction|].
  unfold replace_all. cbn [app replace_from]. cbn [app] in Hx.
  rewrite Hx, Hm. cbn [length]. now rewrite replace_from_skip.
Qed.

Lemma exec_bold_other (c : char) (s : jsstring) :
  N.eqb c STAR = false -> exec_at bold_re (c :: s) = None.
Proof.
  intros H. unfold exec_at, bold_re. cbn [rmatch].
  change (lit "**") with [STAR; STAR]. cbn [strip_prefix]. now rewrite H.
Qed.

Lemma exec_link_other (c : char) (s : jsstring) :
  N.eqb c LBRACKET = false -> exec_at link_re (c :: s) = None.
Proof.
  intros H. unfold exec_at, link_re. cbn [rmatch].
  change (lit "[") with [LBRACKET]. cbn [strip_prefix]. now rewrite H.
Qed.

(** Text without [*] is copied by the bold replacement, text without [[] by
    the link replacement, whatever follows. *)
Lemma replace_bold_copy (w s : jsstring) :
  free_of STAR w = true ->
  replace_all bold_re bold_tpl (w ++ s) = w ++ replace_all bold_re bold_tpl s.
Proof.
  unfold replace_all. induction w as [|c w IH]; intros H; [reflexivity|].
  cbn [free_of forallb] in H. apply andb_true_iff in H as [Hc Hw].
  apply negb_true_iff in Hc. cbn [app replace_from].
  rewrite (exec_bold_other c (w ++ s) Hc). f_equal. now apply IH.
Qed.

Lemma replace_link_copy (w s : jsstring) :
  free_of LBRACKET w = true ->
  replace_all link_re link_tpl (w ++ s) = w ++ replace_all link_re link_tpl s.
Proof.
  unfold replace_all. induction w as [|c w IH]; intros H; [reflexivity|].
  cbn [free_of forallb] in H. apply andb_true_iff in H as [Hc Hw].
  apply negb_true_iff in Hc. cbn [app replace_from].
  rewrite (exec_link_other c (w ++ s) Hc). f_equal. now apply IH.
Qed.

Lemma replace_all_no_head (r : regex) (tpl : list tpl_item) (c : char)
      (s : jsstring) :
  exec_at r (c :: s) = None ->
  replace_all r tpl (c :: s) = c :: replace_all r tpl s.
Proof. intros H. unfold replace_all. cbn [replace_from]. now rewrite H. Qed.

(** ** What a line leaves behind, field by field *)

Lemma flushed_fields (st : loop_state) :
  sections (result (flush_list st)) =
    sections (result st)
      ++ match currentList st with
         | Some l => [list_section l]
         | None => []
         end /\
  title (result (flush_list st)) = title (result st) /\
  description (result (flush_list st)) = description (result st) /\
  currentList (flush_list st) = None /\
  inMetadata (flush_list st) = inMetadata st.
Proof.
  split; [apply flush_list_sections|].
  split; [|split; [|split; [apply flush_list_currentList
                           |apply flush_list_inMetadata]]];
    unfold flush_list; now destruct (currentList st).
Qed.

Lemma pushed_fields (st : loop_state) (sec : PmapSection) :
  sections (result (push sec (flush_list st))) =
    sections (result st)
      ++ match currentList st with
         | Some l => [list_section l]
         | None => []
         end ++ [sec] /\
  title (result (push sec (flush_list st))) = title (result st) /\
  description (result (push sec (flush_list st))) = description (result st) /\
  currentList (push sec (flush_list st)) = None /\
  inMetadata (push sec (flush_list st)) = inMetadata st.
Proof.
  destruct (flushed_fields st) as (Hs & Ht & Hd & Hc & Hm).
  cbn [push result sections title description currentList inMetadata].
  rewrite Hs, <- app_assoc. auto.
Qed.

(** A match of the image pattern ends with a closing bracket, so a line
    without one has no match. *)
Lemma image_re_ends (w : jsstring) (c : captures) :
  lang image_re w [] c -> exists w0, w = w0 ++ [RBRACKET].
Proof.
  unfold image_re, image_url_re, image_close_re, image_alt_re. simpl.
  intros (w1 & w2 & c1 & -> & _ & w3 & w4 & c2 & -> & _
          & w5 & w6 & c3 & -> & _
          & w7 & w8 & c5 & -> & _ & w9 & w10 & c6 & -> & _ & [-> _]).
  exists (w1 ++ w3 ++ w5 ++ w7 ++ w9). now rewrite <- !app_assoc.
Qed.

Lemma image_no_bracket (rest : jsstring) :
  free_of RBRACKET rest = true ->
  search image_re (lit "[image:" ++ rest) = None.
Proof.
  intros Hr.
  destruct (search image_re (lit "[image:" ++ rest)) as [m|] eqn:E;
    [|reflexivity].
  apply search_sound in E as (pre & s' & Es & E).
  apply exec_at_sound in E as (s'' & -> & L).
  apply image_re_ends in L as [w0 Ew]. rewrite Ew in Es.
  assert (F : free_of RBRACKET (lit "[image:" ++ rest) = true)
    by (rewrite free_of_app, Hr; reflexivity).
  rewrite Es, !free_of_app in F. simpl in F.
  rewrite !andb_false_r in F. discriminate.
Qed.

(** ** Counting what is due *)

Lemma sections_due_flush (st : loop_state) :
  sections_due (flush_list st) = sections_due st.
Proof.
  unfold sections_due, flush_list.
  destruct (currentList st) eqn:E; simpl; [|now rewrite E].
  rewrite length_app. simpl. lia.
Qed.

Lemma sections_due_body (i : nat) (line : jsstring) (st st' : loop_state) :
  body i line st = Returned st' ->
  sections_due st' <= sections_due st + (if nonblank line then 1 else 0).
Proof.
  intros H. unfold nonblank.
  destruct (trim line) as [|c t] eqn:Et.
  - rewrite (body_blank i line st Et) in H. injection H as <-.
    rewrite sections_due_flush. simpl. lia.
  - cbn [is_nil negb].
    apply (body_updates (fun s => sections_due s <= sections_due st + 1)
             _ _ _ _ H).
    + rewrite sections_due_flush. lia.
    + intros _. unfold sections_due. simpl. lia.
    + intros _. unfold sections_due. simpl. lia.
    + lia.
    + intros _ x. unfold sections_due. simpl. lia.
    + intros _ x. unfold sections_due. simpl. lia.
    + intros _ sec _. rewrite <- (sections_due_flush st).
      unfold sections_due. simpl. rewrite length_app. simpl. lia.
    + intros _ x. unfold sections_due. simpl.
      destruct (currentList st); lia.
Qed.

(** ** Lines in their document

    A line is read in the state the lines before it leave: [scan pre 0
    initial_state = Returned st] says that the lines [pre] of a document
    bring the loop to [st]. *)

Lemma bind_Returned (A : Type) (x : outcome A) : bind x Returned = x.
Proof. now destruct x. Qed.

Lemma scan_snoc (pre : list jsstring) (st : loop_state) (line : jsstring) :
  scan pre 0 initial_state = Returned st ->
  scan (pre ++ [line]) 0 initial_state = body (length pre) line st.
Proof.
  intros H. rewrite scan_app, H. cbn [bind scan Nat.add].
  apply bind_Returned.
Qed.

Lemma lists_nonempty_initial : lists_nonempty initial_state.
Proof. split; [reflexivity | discriminate]. Qed.

(** * The claims *)

(** C1. For every input string [parsePmap] terminates and returns a
    document: no operation of the body throws, and the counter loop of the
    source leaves after one test per line and one more, whatever fuel is
    left over. *)
Theorem parsePmap_total (content : jsstring) :
  exists d,
    parsePmap content = Returned d /\
    forall extra,
      parsePmap_loop (S (length (split_lines content)) + extra) content
      = Some (Returned d).
Proof.
  unfold parsePmap, parse_lines, parsePmap_loop.
  destruct (scan_total (split_lines content) 0 initial_state) as [st Hst].
  exists (finish st). rewrite Hst. split; [reflexivity|]. intros extra.
  pose proof (for_loop_scan [] (split_lines content) initial_state extra)
    as H.
  cbn [app length] in H. now rewrite H, Hst.
Qed.

(** C3. Every [list] section of the document [parsePmap] returns has at
    least one item: the pending list is created by the push of its first
    item and a list is pushed to the sections only from a pending list. *)
Theorem list_sections_nonempty (content : jsstring) :
  exists d,
    parsePmap content = Returned d /\
    forallb nonempty_list_section (sections d) = true /\
    forall sec,
      In sec (sections d) -> type sec = TList ->
      exists item its, items sec = Some (item :: its).
Proof.
  unfold parsePmap, parse_lines.
  destruct (scan_total (split_lines content) 0 initial_state) as [st Hst].
  exists (finish st). rewrite Hst.
  assert (H : forallb nonempty_list_section (sections (finish st)) = true).
  { rewrite finish_sections. apply lists_nonempty_flush.
    exact (lists_nonempty_scan _ _ _ _ lists_nonempty_initial Hst). }
  split; [reflexivity|]. split; [exact H|].
  intros sec Hin Hty. rewrite forallb_forall in H. specialize (H sec Hin).
  unfold nonempty_list_section in H. rewrite Hty in H.
  destruct (items sec) as [[|item its]|]; try discriminate. eauto.
Qed.

(** C4. A line whose trimmed form starts with a run of [n >= 1] characters
    [#], read outside the metadata block, flushes the pending list and
    pushes one section after it: its type is [heading], its level is [n],
    whatever [n] is, its content is the rest of the line after the run,
    trimmed, and it has no other field. [## Hello] gives level 2 and content
    [Hello]; [#### X] gives level 4. *)
Theorem heading_level_and_content :
  (forall (pre : list jsstring) (st : loop_state) (line : jsstring)
          (n : nat) (rest : jsstring),
      scan pre 0 initial_state = Returned st ->
      inMetadata st = false ->
      trim line = repeat HASH (S n) ++ rest ->
      startsWith rest (lit "#") = false ->
      exists st',
        scan (pre ++ [line]) 0 initial_state = Returned st' /\
        sections (result st') =
          sections (result st)
            ++ match currentList st with
               | Some l =>
                   [{| type := TList; content := []; level := None;
                       items := Some l; url := None; alt := None |}]
               | None => []
               end
            ++ [{| type := THeading; content := trim rest;
                   level := Some (S n); items := None;
                   url := None; alt := None |}] /\
        title (result st') = title (result st) /\
        description (result st') = description (result st) /\
        currentList st' = None /\
        inMetadata st' = false)
  /\ parsePmap (lit "## Hello") =
       Returned
         {| title := None; description := None;
            sections := [{| type := THeading; content := lit "Hello";
                            level := Some 2; items := None;
                            url := None; alt := None |}] |}
  /\ parsePmap (lit "#### X") =
       Returned
         {| title := None; description := None;
            sections := [{| type := THeading; content := lit "X";
                            level := Some 4; items := None;
                            url := None; alt := None |}] |}.
Proof.
  split; [|split; vm_compute; reflexivity].
  intros pre st line n rest Hpre Hm Et Hr.
  rewrite (scan_snoc _ _ _ Hpre), (body_heading _ _ _ n rest Hm Et Hr).
  eexists. split; [reflexivity|].
  destruct (pushed_fields st (heading_section (trim rest) (S n)))
    as (Hs & Ht & Hd & Hc & Hi).
  rewrite Hm in Hi.
  exact (conj Hs (conj Ht (conj Hd (conj Hc Hi)))).
Qed.

(** C4 on the line [ ###  Deep title ] after a list item: the list is
    flushed and the heading has level 3. *)
Lemma heading_level_and_content_witness :
  scan [lit "- item"] 0 initial_state =
    Returned (push_item (lit "item") initial_state) /\
  trim (lit " ###  Deep title ") = repeat HASH 3 ++ lit "  Deep title" /\
  exists st',
    scan ([lit "- item"] ++ [lit " ###  Deep title "]) 0 initial_state =
      Returned st' /\
    sections (result st') =
      [{| type := TList; content := []; level := None;
          items := Some [lit "item"]; url := None; alt := None |};
       {| type := THeading; content := lit "Deep title";
          level := Some 3; items := None; url := None; alt := None |}].
Proof.
  assert (H1 : scan [lit "- item"] 0 initial_state =
                 Returned (push_item (lit "item") initial_state))
    by reflexivity.
  assert (H2 : inMetadata (push_item (lit "item") initial_state) = false)
    by reflexivity.
  assert (H3 : trim (lit " ###  Deep title ")
               = repeat HASH 3 ++ lit "  Deep title") by reflexivity.
  assert (H4 : startsWith (lit "  Deep title") (lit "#") = false)
    by reflexivity.
  refine (conj H1 (conj H3 _)).
  destruct (proj1 heading_level_and_content [lit "- item"] _
              (lit " ###  Deep title ") 2 (lit "  Deep title") H1 H2 H3 H4)
    as (st' & Hscan & Hsec & _).
  exists st'. exact (conj Hscan Hsec).
Defined.

(** C2. A run of [N >= 1] list-item lines that starts with no list pending,
    outside the metadata block, leaves its [N] items pending in source
    order and pushes nothing. The end of the input or the first line that
    is not a list item flushes them as one section of type [list] whose
    items are the [N] items, each what follows the [-], trimmed; a blank
    line pushes nothing else, a paragraph, a heading or an image pushes its
    own section after the list, and the lines after that only add sections
    behind. With no list-item line there is nothing pending and no section
    of type [list] is pushed. A paragraph, a list item, a blank line and a
    paragraph give a text, a list of the one item and a text. *)
Theorem list_run_one_section :
  (forall (pre : list jsstring) (st : loop_state) (run : list jsstring),
      scan pre 0 initial_state = Returned st ->
      inMetadata st = false ->
      currentList st = None ->
      run <> [] ->
      Forall (fun l => startsWith (trim l) (lit "-") = true) run ->
      (pre = [] -> hd [] (map trim run) <> lit "---") ->
      scan (pre ++ run) 0 initial_state =
        Returned
          {| result := result st;
             currentList :=
               Some (map (fun l => trim (substring (trim l) 1)) run);
             inMetadata := false |}
      /\ parse_lines (pre ++ run) =
           Returned
             {| title := title (result st);
                description := description (result st);
                sections :=
                  sections (result st)
                    ++ [{| type := TList; content := []; level := None;
                           items :=
                             Some (map (fun l => trim (substring (trim l) 1))
                                     run);
                           url := None; alt := None |}] |}
      /\ (forall b,
             trim b = [] ->
             scan (pre ++ run ++ [b]) 0 initial_state =
               Returned
                 {| result :=
                      {| title := title (result st);
                         description := description (result st);
                         sections :=
                           sections (result st)
                             ++ [{| type := TList; content := [];
                                    level := None;
                                    items :=
                                      Some (map (fun l =>
                                                   trim (substring (trim l) 1))
                                              run);
                                    url := None; alt := None |}] |};
                    currentList := None;
                    inMetadata := false |})
      /\ (forall b,
             is_paragraph b = true ->
             scan (pre ++ run ++ [b]) 0 initial_state =
               Returned
                 {| result :=
                      {| title := title (result st);
                         description := description (result st);
                         sections :=
                           sections (result st)
                             ++ [{| type := TList; content := [];
                                    level := None;
                                    items :=
                                      Some (map (fun l =>
                                                   trim (substring (trim l) 1))
                                              run);
                                    url := None; alt := None |};
                                 {| type := TText; content := trim b;
                                    level := None; items := None;
                                    url := None; alt := None |}] |};
                    currentList := None;
                    inMetadata := false |})
      /\ (forall b n rest,
             trim b = repeat HASH (S n) ++ rest ->
             startsWith rest (lit "#") = false ->
             scan (pre ++ run ++ [b]) 0 initial_state =
               Returned
                 {| result :=
                      {| title := title (result st);
                         description := description (result st);
                         sections :=
                           sections (result st)
                             ++ [{| type := TList; content := [];
                                    level := None;
                                    items :=
                                      Some (map (fun l =>
                                                   trim (substring (trim l) 1))
                                              run);
                                    url := None; alt := None |};
                                 {| type := THeading; content := trim rest;
                                    level := Some (S n); items := None;
                                    url := None; alt := None |}] |};
                    currentList := None;
                    inMetadata := false |})
      /\ (forall b,
             startsWith (trim b) (lit "-") = false ->
             exists st' extra,
               scan (pre ++ run ++ [b]) 0 initial_state = Returned st' /\
               sections (result st') =
                 sections (result st)
                   ++ {| type := TList; content := []; level := None;
                         items :=
                           Some (map (fun l => trim (substring (trim l) 1))
                                   run);
                         url := None; alt := None |} :: extra /\
               (forall sec, In sec extra -> type sec <> TList) /\
               length extra <= 1 /\
               currentList st' = None /\
               forall post,
               exists d more,
                 parse_lines ((pre ++ run ++ [b]) ++ post) = Returned d /\
                 sections d = sections (result st') ++ more))
  /\ (forall (pre : list jsstring) (st : loop_state) (b : jsstring),
         scan pre 0 initial_state = Returned st ->
         inMetadata st = false ->
         currentList st = None ->
         startsWith (trim b) (lit "-") = false ->
         parse_lines pre = Returned (result st)
         /\ exists st' extra,
             scan (pre ++ [b]) 0 initial_state = Returned st' /\
             sections (result st') = sections (result st) ++ extra /\
             (forall sec, In sec extra -> type sec <> TList) /\
             currentList st' = None)
  /\ (forall p1 l b p2 : jsstring,
         is_paragraph p1 = true ->
         startsWith (trim l) (lit "-") = true ->
         trim b = [] ->
         is_paragraph p2 = true ->
         parse_lines [p1; l; b; p2] =
           Returned
             {| title := None; description := None;
                sections :=
                  [{| type := TText; content := trim p1; level := None;
                      items := None; url := None; alt := None |};
                   {| type := TList; content := []; level := None;
                      items := Some [trim (substring (trim l) 1)];
                      url := None; alt := None |};
                   {| type := TText; content := trim p2; level := None;
                      items := None; url := None; alt := None |}] |})
  /\ parsePmap (join_lines [lit "para"; lit "- item"; []; lit "para2"]) =
       Returned
         {| title := None; description := None;
            sections :=
              [{| type := TText; content := lit "para"; level := None;
                  items := None; url := None; alt := None |};
               {| type := TList; content := []; level := None;
                  items := Some [lit "item"]; url := None; alt := None |};
               {| type := TText; content := lit "para2"; level := None;
                  items := None; url := None; alt := None |}] |}.
Proof.
  split; [|split; [|split; [|vm_compute; reflexivity]]].
  - intros pre st run Hpre Hm Hc Hne Hall Hfirst.
    assert (Hrun : scan (pre ++ run) 0 initial_state =
                     Returned {| result := result st;
                                 currentList := Some (map item_of run);
                                 inMetadata := false |}).
    { rewrite scan_app, Hpre. cbn [bind Nat.add].
      rewrite scan_list_run; auto.
      - rewrite fold_push_items by assumption.
        unfold pending. now rewrite Hc, Hm.
      - intros E. apply length_zero_iff_nil in E. auto. }
    assert (Hsnoc : forall b,
               scan (pre ++ run ++ [b]) 0 initial_state =
                 body (length (pre ++ run)) b
                   {| result := result st;
                      currentList := Some (map item_of run);
                      inMetadata := false |}).
    { intros b. now rewrite app_assoc, (scan_snoc _ _ _ Hrun). }
    split; [exact Hrun|].
    split; [unfold parse_lines; now rewrite Hrun|].
    split; [intros b Hb; rewrite Hsnoc; now rewrite (body_blank _ _ _ Hb)|].
    split.
    { intros b Hb. rewrite Hsnoc.
      unfold is_paragraph, nonblank in Hb.
      repeat (apply andb_true_iff in Hb as [Hb ?]).
      rewrite body_text; try (now apply negb_true_iff); try reflexivity.
      - unfold flush_list. cbn [currentList]. unfold push.
        cbn [currentList result sections title description inMetadata].
        now rewrite <- app_assoc.
      - intros E. now rewrite E in Hb. }
    split.
    { intros b n rest Et Hr. rewrite Hsnoc.
      rewrite (body_heading _ b _ n rest) by (reflexivity || assumption).
      unfold flush_list. cbn [currentList]. unfold push.
      cbn [currentList result sections title description inMetadata].
      now rewrite <- app_assoc. }
    intros b Hb.
    destruct (body_breaker (length (pre ++ run)) b
                {| result := result st;
                   currentList := Some (map item_of run);
                   inMetadata := false |} eq_refl Hb)
      as (st' & extra & Hbody & Hs & Hx & Hc' & _).
    assert (Hs' : sections (result st') =
                    sections (result st)
                      ++ list_section (map item_of run) :: extra).
    { rewrite Hs, flush_list_sections. cbn [currentList result].
      now rewrite <- app_assoc. }
    assert (Hb' : scan (pre ++ run ++ [b]) 0 initial_state = Returned st')
      by now rewrite Hsnoc.
    assert (Hlen : length extra <= 1).
    { pose proof (f_equal (@length _) Hs) as Hl.
      pose proof (sections_due_body _ _ _ _ Hbody) as Hdue.
      unfold sections_due in Hdue. rewrite Hc' in Hdue.
      rewrite flush_list_sections in Hl. cbn in Hl, Hdue.
      rewrite !length_app in Hl. cbn in Hl.
      destruct (nonblank b); lia. }
    exists st', extra.
    split; [exact Hb'|]. split; [exact Hs'|]. split.
    { intros sec Hin E.
      assert (Hex : existsb is_list_section extra = true).
      { apply existsb_exists. exists sec. split; [exact Hin|].
        unfold is_list_section. now rewrite E. }
      rewrite Hex in Hx. discriminate. }
    split; [exact Hlen|]. split; [exact Hc'|]. intros post.
    destruct (scan_total post (0 + length (pre ++ run ++ [b])) st')
      as [st'' Hpost].
    destruct (scan_sections_grow _ _ _ _ Hpost) as [m1 Hm1].
    exists (finish st''),
      (m1 ++ match currentList st'' with
             | Some l => [list_section l]
             | None => []
             end).
    unfold parse_lines. rewrite scan_app, Hb'. cbn [bind].
    rewrite Hpost. cbn [bind]. split; [reflexivity|].
    rewrite finish_sections, flush_list_sections, Hm1.
    now rewrite !app_assoc.
  - intros pre st b Hpre Hm Hc Hb. split.
    + unfold parse_lines. rewrite Hpre. cbn [bind].
      unfold finish. now rewrite Hc.
    + destruct (body_breaker (length pre) b st Hm Hb)
        as (st' & extra & Hbody & Hs & Hx & Hc' & _).
      exists st', extra. rewrite (scan_snoc _ _ _ Hpre).
      rewrite flush_list_none in Hs by assumption.
      split; [exact Hbody|]. split; [exact Hs|]. split; [|exact Hc'].
      intros sec Hin E.
      assert (Hex : existsb is_list_section extra = true).
      { apply existsb_exists. exists sec. split; [exact Hin|].
        unfold is_list_section. now rewrite E. }
      rewrite Hex in Hx. discriminate.
  - intros p1 l b p2 Hp1 Hl Hb Hp2.
    unfold is_paragraph, nonblank in Hp1, Hp2.
    repeat (apply andb_true_iff in Hp1 as [Hp1 ?]).
    repeat (apply andb_true_iff in Hp2 as [Hp2 ?]).
    unfold parse_lines. cbn [scan].
    rewrite (body_text 0 p1 initial_state);
      try (now apply negb_true_iff); try reflexivity.
    2:{ intros E. now rewrite E in Hp1. }
    cbn [bind]. rewrite body_list_item; try assumption; try reflexivity.
    2:{ intros [=]. }
    cbn [bind]. rewrite (body_blank _ b _ Hb). cbn [bind].
    rewrite body_text; try (now apply negb_true_iff); try reflexivity.
    intros E. now rewrite E in Hp2.
Qed.

(** C2 on a paragraph followed by the items [- one] and [ -two ], and on
    a paragraph, an item, a blank line and a paragraph. *)
Lemma list_run_one_section_witness :
  (scan [lit "para"] 0 initial_state =
     Returned (push (text_section (lit "para")) initial_state) /\
   parse_lines ([lit "para"] ++ [lit "- one"; lit " -two "]) =
     Returned
       {| title := None; description := None;
          sections :=
            [{| type := TText; content := lit "para"; level := None;
                items := None; url := None; alt := None |};
             {| type := TList; content := []; level := None;
                items := Some [lit "one"; lit "two"];
                url := None; alt := None |}] |})
  /\ (is_paragraph (lit " Intro: ") = true /\
      startsWith (trim (lit "  - first point ")) (lit "-") = true /\
      trim (lit "   ") = [] /\
      is_paragraph (lit "Outro") = true /\
      parse_lines [lit " Intro: "; lit "  - first point "; lit "   ";
                   lit "Outro"] =
        Returned
          {| title := None; description := None;
             sections :=
               [{| type := TText; content := lit "Intro:"; level := None;
                   items := None; url := None; alt := None |};
                {| type := TList; content := []; level := None;
                   items := Some [lit "first point"];
                   url := None; alt := None |};
                {| type := TText; content := lit "Outro"; level := None;
                   items := None; url := None; alt := None |}] |}).
Proof.
  assert (H1 : scan [lit "para"] 0 initial_state =
                 Returned (push (text_section (lit "para")) initial_state))
    by reflexivity.
  assert (H2 : inMetadata (push (text_section (lit "para")) initial_state)
               = false) by reflexivity.
  assert (H3 : currentList (push (text_section (lit "para")) initial_state)
               = None) by reflexivity.
  assert (H4 : [lit "- one"; lit " -two "] <> []) by discriminate.
  assert (H5 : Forall (fun l => startsWith (trim l) (lit "-") = true)
                 [lit "- one"; lit " -two "])
    by (repeat constructor).
  assert (H6 : [lit "para"] = [] ->
               hd [] (map trim [lit "- one"; lit " -two "]) <> lit "---")
    by discriminate.
  assert (G1 : is_paragraph (lit " Intro: ") = true) by reflexivity.
  assert (G2 : startsWith (trim (lit "  - first point ")) (lit "-") = true)
    by reflexivity.
  assert (G3 : trim (lit "   ") = []) by reflexivity.
  assert (G4 : is_paragraph (lit "Outro") = true) by reflexivity.
  split.
  - refine (conj H1 _).
    exact (proj1 (proj2 (proj1 list_run_one_section [lit "para"] _
                           [lit "- one"; lit " -two "] H1 H2 H3 H4 H5 H6))).
  - refine (conj G1 (conj G2 (conj G3 (conj G4 _)))).
    exact (proj1 (proj2 (proj2 list_run_one_section))
             (lit " Intro: ") (lit "  - first point ") (lit "   ")
             (lit "Outro") G1 G2 G3 G4).
Defined.

(** C5. A line that starts with [[image:], read outside the metadata block,
    flushes the pending list. When the image pattern matches, one section
    follows: its type is [image], its url is group 1 (the URL part) trimmed,
    its alt is group 2 (the ALT part) trimmed, or the empty string when the
    group is absent, and its content is empty. When the pattern does not
    match, no section is pushed for the line and the loop goes on. On a line
    [[image:U]] with [U] non-empty and free of [|] the url is [U] trimmed
    and the alt is empty; on [[image:U|A]] with, besides, [A] non-empty and
    free of line terminators, the alt is [A] trimmed; a line without a
    closing bracket does not match. *)
Theorem image_declaration :
  (forall (pre : list jsstring) (st : loop_state) (line : jsstring),
      scan pre 0 initial_state = Returned st ->
      inMetadata st = false ->
      startsWith (trim line) (lit "[image:") = true ->
      exists st',
        scan (pre ++ [line]) 0 initial_state = Returned st' /\
        title (result st') = title (result st) /\
        description (result st') = description (result st) /\
        currentList st' = None /\
        inMetadata st' = false /\
        (forall m,
            search image_re (trim line) = Some m ->
            exists u,
              cap 1 (m_caps m) = Some u /\
              sections (result st') =
                sections (result st)
                  ++ match currentList st with
                     | Some l =>
                         [{| type := TList; content := []; level := None;
                             items := Some l; url := None; alt := None |}]
                     | None => []
                     end
                  ++ [{| type := TImage; content := []; level := None;
                         items := None; url := Some (trim u);
                         alt := Some match cap 2 (m_caps m) with
                                     | Some a => trim a
                                     | None => []
                                     end |}]) /\
        (search image_re (trim line) = None ->
         sections (result st') =
           sections (result st)
             ++ match currentList st with
                | Some l =>
                    [{| type := TList; content := []; level := None;
                        items := Some l; url := None; alt := None |}]
                | None => []
                end))
  /\ (forall (pre : list jsstring) (st : loop_state) (line U : jsstring),
         scan pre 0 initial_state = Returned st ->
         inMetadata st = false ->
         trim line = lit "[image:" ++ U ++ [RBRACKET] ->
         U <> [] -> forallb not_pipe U = true ->
         exists st',
           scan (pre ++ [line]) 0 initial_state = Returned st' /\
           sections (result st') =
             sections (result st)
               ++ match currentList st with
                  | Some l =>
                      [{| type := TList; content := []; level := None;
                          items := Some l; url := None; alt := None |}]
                  | None => []
                  end
               ++ [{| type := TImage; content := []; level := None;
                      items := None; url := Some (trim U);
                      alt := Some [] |}] /\
           currentList st' = None)
  /\ (forall (pre : list jsstring) (st : loop_state) (line U A : jsstring),
         scan pre 0 initial_state = Returned st ->
         inMetadata st = false ->
         trim line = lit "[image:" ++ U ++ PIPE :: A ++ [RBRACKET] ->
         U <> [] -> forallb not_pipe U = true ->
         A <> [] -> forallb dot A = true ->
         exists st',
           scan (pre ++ [line]) 0 initial_state = Returned st' /\
           sections (result st') =
             sections (result st)
               ++ match currentList st with
                  | Some l =>
                      [{| type := TList; content := []; level := None;
                          items := Some l; url := None; alt := None |}]
                  | None => []
                  end
               ++ [{| type := TImage; content := []; level := None;
                      items := None; url := Some (trim U);
                      alt := Some (trim A) |}] /\
           currentList st' = None)
  /\ (forall (pre : list jsstring) (st : loop_state) (line rest : jsstring),
         scan pre 0 initial_state = Returned st ->
         inMetadata st = false ->
         trim line = lit "[image:" ++ rest ->
         free_of RBRACKET rest = true ->
         exists st',
           scan (pre ++ [line]) 0 initial_state = Returned st' /\
           sections (result st') =
             sections (result st)
               ++ match currentList st with
                  | Some l =>
                      [{| type := TList; content := []; level := None;
                          items := Some l; url := None; alt := None |}]
                  | None => []
                  end /\
           currentList st' = None /\
           inMetadata st' = false)
  /\ parsePmap (lit "[image: a.png | A cat]") =
       Returned
         {| title := None; description := None;
            sections := [{| type := TImage; content := []; level := None;
                            items := None; url := Some (lit "a.png");
                            alt := Some (lit "A cat") |}] |}
  /\ parsePmap (lit "[image: a.png]") =
       Returned
         {| title := None; description := None;
            sections := [{| type := TImage; content := []; level := None;
                            items := None; url := Some (lit "a.png");
                            alt := Some [] |}] |}
  /\ parsePmap (join_lines [lit "[image: a.png"; lit "[image:]";
                            lit "[image: a |]"; lit "after"]) =
       Returned
         {| title := None; description := None;
            sections := [{| type := TText; content := lit "after";
                            level := None; items := None;
                            url := None; alt := None |}] |}.
Proof.
  split; [|split; [|split; [|split; [|repeat split; vm_compute;
                                      reflexivity]]]].
  - intros pre st line Hpre Hm Hs.
    destruct (startsWith_prefix _ _ Hs) as [rest Et].
    rewrite (scan_snoc _ _ _ Hpre), (body_image _ _ _ _ Hm Et).
    destruct (search image_re (trim line)) as [m|] eqn:Em.
    + destruct (image_cap1 _ _ Em) as [u Hu]. rewrite Hu.
      eexists. split; [reflexivity|].
      destruct (pushed_fields st (image_section (trim u) (alt_of m)))
        as (Hsec & Ht & Hd & Hc & Hi).
      rewrite Hm in Hi.
      split; [exact Ht|]. split; [exact Hd|]. split; [exact Hc|].
      split; [exact Hi|]. split; [|discriminate].
      intros m' [= <-]. exists u. split; [exact Hu|].
      rewrite Hsec. unfold image_section, alt_of.
      destruct (cap 2 (m_caps m)) as [a|]; [|reflexivity].
      now destruct (trim a).
    + eexists. split; [reflexivity|].
      destruct (flushed_fields st) as (Hsec & Ht & Hd & Hc & Hi).
      rewrite Hm in Hi.
      split; [exact Ht|]. split; [exact Hd|]. split; [exact Hc|].
      split; [exact Hi|]. split; [discriminate|].
      intros _. exact Hsec.
  - intros pre st line U Hpre Hm Et Hne Hu.
    rewrite (scan_snoc _ _ _ Hpre),
      (body_image_plain _ _ _ U Hm Et Hne Hu).
    eexists. split; [reflexivity|].
    destruct (pushed_fields st (image_section (trim U) []))
      as (Hsec & _ & _ & Hc & _).
    exact (conj Hsec Hc).
  - intros pre st line U A Hpre Hm Et Hne Hu HA Hd.
    rewrite (scan_snoc _ _ _ Hpre),
      (body_image_alt _ _ _ U A Hm Et Hne Hu HA Hd).
    eexists. split; [reflexivity|].
    destruct (pushed_fields st (image_section (trim U) (trim A)))
      as (Hsec & _ & _ & Hc & _).
    exact (conj Hsec Hc).
  - intros pre st line rest Hpre Hm Et Hr.
    rewrite (scan_snoc _ _ _ Hpre), (body_image _ _ _ _ Hm Et), Et.
    rewrite (image_no_bracket rest Hr).
    eexists. split; [reflexivity|].
    destruct (flushed_fields st) as (Hsec & _ & _ & Hc & Hi).
    rewrite Hm in Hi. exact (conj Hsec (conj Hc Hi)).
Qed.

(** C5 on a declaration whose address and alternative text both contain a
    closing bracket, and on a declaration without a closing bracket after a
    list item. *)
Lemma image_declaration_witness :
  (trim (lit "  [image:  pics/cat].png | A [fat] cat ]  ")
   = lit "[image:" ++ lit "  pics/cat].png " ++ PIPE :: lit " A [fat] cat "
       ++ [RBRACKET] /\
   exists st',
     scan ([] ++ [lit "  [image:  pics/cat].png | A [fat] cat ]  "]) 0
       initial_state = Returned st' /\
     sections (result st') =
       [{| type := TImage; content := []; level := None; items := None;
           url := Some (lit "pics/cat].png");
           alt := Some (lit "A [fat] cat") |}])
  /\ (trim (lit "[image: pics/cat.png | A cat ")
      = lit "[image:" ++ lit " pics/cat.png | A cat" /\
      free_of RBRACKET (lit " pics/cat.png | A cat") = true /\
      exists st',
        scan ([lit "- item"] ++ [lit "[image: pics/cat.png | A cat "]) 0
          initial_state = Returned st' /\
        sections (result st') =
          [{| type := TList; content := []; level := None;
              items := Some [lit "item"]; url := None; alt := None |}]).
Proof.
  assert (H1 : scan [] 0 initial_state = Returned initial_state)
    by reflexivity.
  assert (H2 : inMetadata initial_state = false) by reflexivity.
  assert (H3 : trim (lit "  [image:  pics/cat].png | A [fat] cat ]  ")
               = lit "[image:" ++ lit "  pics/cat].png "
                   ++ PIPE :: lit " A [fat] cat " ++ [RBRACKET])
    by reflexivity.
  assert (H4 : lit "  pics/cat].png " <> []) by discriminate.
  assert (H5 : forallb not_pipe (lit "  pics/cat].png ") = true)
    by reflexivity.
  assert (H6 : lit " A [fat] cat " <> []) by discriminate.
  assert (H7 : forallb dot (lit " A [fat] cat ") = true) by reflexivity.
  assert (G1 : scan [lit "- item"] 0 initial_state =
                 Returned (push_item (lit "item") initial_state))
    by reflexivity.
  assert (G2 : inMetadata (push_item (lit "item") initial_state) = false)
    by reflexivity.
  assert (G3 : trim (lit "[image: pics/cat.png | A cat ")
               = lit "[image:" ++ lit " pics/cat.png | A cat")
    by reflexivity.
  assert (G4 : free_of RBRACKET (lit " pics/cat.png | A cat") = true)
    by reflexivity.
  split.
  - refine (conj H3 _).
    destruct (proj1 (proj2 (proj2 image_declaration)) [] initial_state _ _ _
                H1 H2 H3 H4 H5 H6 H7) as (st' & Hscan & Hsec & _).
    exists st'. exact (conj Hscan Hsec).
  - refine (conj G3 (conj G4 _)).
    destruct (proj1 (proj2 (proj2 (proj2 image_declaration)))
                [lit "- item"] _ _ _ G1 G2 G3 G4)
      as (st' & Hscan & Hsec & _).
    exists st'. exact (conj Hscan Hsec).
Defined.

(** The first line opens the block and the lines of the block follow. *)
Lemma scan_opened_block (l0 : jsstring) (meta : list jsstring) :
  trim l0 = lit "---" ->
  Forall (fun l => trim l <> lit "---") meta ->
  scan (l0 :: meta) 0 initial_state =
    Returned
      {| result :=
           {| title := last_value (lit "title:") meta None;
              description := last_value (lit "description:") meta None;
              sections := [] |};
         currentList := None;
         inMetadata := true |}.
Proof.
  intros H0 Hall. cbn [scan].
  rewrite (body_open_metadata 0 l0 initial_state H0 eq_refl). cbn [bind].
  now rewrite scan_metadata_block.
Qed.



(** C8. In a document whose first line trims to [---] and none of whose
    later lines does, the metadata block stays open to the end of the input:
    every later line is read as metadata, which can only set the title or the
    description, and the document has no section. *)
Theorem unclosed_metadata_no_sections
        (content l0 : jsstring) (rest : list jsstring) :
  split_lines content = l0 :: rest ->
  trim l0 = lit "---" ->
  Forall (fun l => trim l <> lit "---") rest ->
  scan (l0 :: rest) 0 initial_state =
    Returned
      {| result :=
           {| title := last_value (lit "title:") rest None;
              description := last_value (lit "description:") rest None;
              sections := [] |};
         currentList := None;
         inMetadata := true |} /\
  parsePmap content =
    Returned {| title := last_value (lit "title:") rest None;
                description := last_value (lit "description:") rest None;
                sections := [] |}.
Proof.
  intros Hsplit H0 Hall.
  pose proof (scan_opened_block l0 rest H0 Hall) as Hblock.
  split; [exact Hblock|].
  unfold parsePmap, parse_lines. now rewrite Hsplit, Hblock.
Qed.

(** C8 on a block that is never closed: the heading, the list item and the
    paragraph after it are read as metadata. *)
Lemma unclosed_metadata_no_sections_witness :
  split_lines (join_lines [lit "---"; lit "title: T"; lit "# Heading";
                           []; lit "- item"; lit "text"])
  = lit "---" :: [lit "title: T"; lit "# Heading"; []; lit "- item";
                  lit "text"] /\
  parsePmap (join_lines [lit "---"; lit "title: T"; lit "# Heading";
                         []; lit "- item"; lit "text"]) =
    Returned
      {| title := last_value (lit "title:")
                    [lit "title: T"; lit "# Heading"; []; lit "- item";
                     lit "text"] None;
         description := last_value (lit "description:")
                          [lit "title: T"; lit "# Heading"; []; lit "- item";
                           lit "text"] None;
         sections := [] |}.
Proof.
  assert (H1 : split_lines
                 (join_lines [lit "---"; lit "title: T"; lit "# Heading";
                              []; lit "- item"; lit "text"])
               = lit "---" :: [lit "title: T"; lit "# Heading"; [];
                               lit "- item"; lit "text"]) by reflexivity.
  assert (H2 : trim (lit "---") = lit "---") by reflexivity.
  assert (H3 : Forall (fun l => trim l <> lit "---")
                 [lit "title: T"; lit "# Heading"; []; lit "- item";
                  lit "text"])
    by (repeat constructor; discriminate).
  refine (conj H1 _).
  exact (proj2 (unclosed_metadata_no_sections _ _ _ H1 H2 H3)).
Defined.

(** C7, as the specification states it, fails: a line [---] after a
    paragraph, outside any metadata block, is not inert. The document gains a
    [list] section with the item [--], which it does not have without the
    line. *)
Lemma dashes_line_not_inert :
  parsePmap (join_lines [lit "a"; lit "---"]) =
    Returned
      {| title := None; description := None;
         sections :=
           [{| type := TText; content := lit "a"; level := None;
               items := None; url := None; alt := None |};
            {| type := TList; content := []; level := None;
               items := Some [lit "--"]; url := None; alt := None |}] |} /\
  parsePmap (join_lines [lit "a"]) =
    Returned
      {| title := None; description := None;
         sections :=
           [{| type := TText; content := lit "a"; level := None;
               items := None; url := None; alt := None |}] |} /\
  parsePmap (join_lines [lit "a"; lit "---"]) <>
    parsePmap (join_lines [lit "a"]).
Proof.
  split; [vm_compute; reflexivity|]. split; [vm_compute; reflexivity|].
  intros H. vm_compute in H. discriminate H.
Qed.

(** C7, amended. A line whose trimmed form is [---], read at an index
    greater than 0 outside the metadata block, is not a metadata delimiter
    (the flag stays off) and pushes no section of its own (the result is
    what it was); it starts with [-], so it is a list item: the item [--]
    joins the pending list, which the end of the run flushes as a [list]
    section. *)
Theorem dashes_outside_metadata_list_item
        (pre : list jsstring) (st : loop_state) (line : jsstring) :
  pre <> [] ->
  scan pre 0 initial_state = Returned st ->
  inMetadata st = false ->
  trim line = lit "---" ->
  scan (pre ++ [line]) 0 initial_state =
    Returned
      {| result := result st;
         currentList := Some match currentList st with
                             | Some l => l ++ [lit "--"]
                             | None => [lit "--"]
                             end;
         inMetadata := false |} /\
  parse_lines (pre ++ [line]) =
    Returned
      {| title := title (result st);
         description := description (result st);
         sections :=
           sections (result st)
             ++ [{| type := TList; content := []; level := None;
                    items := Some match currentList st with
                                  | Some l => l ++ [lit "--"]
                                  | None => [lit "--"]
                                  end;
                    url := None; alt := None |}] |}.
Proof.
  intros Hne Hpre Hm Et.
  assert (Hscan : scan (pre ++ [line]) 0 initial_state =
                    Returned (push_item (lit "--") st)).
  { rewrite (scan_snoc _ _ _ Hpre), body_list_item; auto.
    - now rewrite Et.
    - now rewrite Et.
    - intros E. apply length_zero_iff_nil in E. contradiction. }
  split.
  - rewrite Hscan. unfold push_item. now rewrite Hm.
  - unfold parse_lines. rewrite Hscan. reflexivity.
Qed.

(** C7, amended, on [ --- ] after a list item: one list of two items. *)
Lemma dashes_outside_metadata_list_item_witness :
  scan [lit "- first"] 0 initial_state =
    Returned (push_item (lit "first") initial_state) /\
  parse_lines ([lit "- first"] ++ [lit " --- "]) =
    Returned
      {| title := None; description := None;
         sections :=
           [{| type := TList; content := []; level := None;
               items := Some [lit "first"; lit "--"];
               url := None; alt := None |}] |}.
Proof.
  assert (H1 : [lit "- first"] <> []) by discriminate.
  assert (H2 : scan [lit "- first"] 0 initial_state =
                 Returned (push_item (lit "first") initial_state))
    by reflexivity.
  assert (H3 : inMetadata (push_item (lit "first") initial_state) = false)
    by reflexivity.
  assert (H4 : trim (lit " --- ") = lit "---") by reflexivity.
  refine (conj H2 _).
  exact (proj2 (dashes_outside_metadata_list_item
                  [lit "- first"] _ (lit " --- ") H1 H2 H3 H4)).
Defined.

(** C9. On a string with no bold span and no link span
    [processInlineMarkup] is the identity, and so applying it twice is
    applying it once. *)
Theorem inline_identity_without_spans (s : jsstring) :
  ~ contains bold_span s ->
  ~ contains link_span s ->
  processInlineMarkup s = s /\
  processInlineMarkup (processInlineMarkup s) = processInlineMarkup s.
Proof.
  intros Hb Hl.
  assert (E : processInlineMarkup s = s).
  { unfold processInlineMarkup.
    rewrite (replace_all_no_match bold_re bold_tpl s).
    - apply replace_all_no_match. intros pre s' ->.
      destruct (exec_at link_re s') as [m|] eqn:E; [|reflexivity].
      apply exec_link_span in E
          as (s'' & t & u & Es & H1 & H2 & H3 & H4 & Em & _).
      elim Hl. exists pre, (m_text m), s''. rewrite <- Es.
      split; [reflexivity|]. exists t, u. auto 10.
    - intros pre s' ->.
      destruct (exec_at bold_re s') as [m|] eqn:E; [|reflexivity].
      apply exec_bold_span in E as (s'' & Es & Hspan).
      elim Hb. exists pre, (m_text m), s''. now rewrite <- Es. }
  split; [exact E|]. now rewrite E.
Qed.

(** C9 on a text with single [*], a parenthesis and a closing bracket. *)
Lemma inline_identity_without_spans_witness :
  processInlineMarkup (lit "2 * 3 = 6 (see notes) ]") =
    lit "2 * 3 = 6 (see notes) ]".
Proof.
  assert (H1 : ~ contains bold_span (lit "2 * 3 = 6 (see notes) ]")).
  { intros H. apply bold_span_includes in H. discriminate H. }
  assert (H2 : ~ contains link_span (lit "2 * 3 = 6 (see notes) ]")).
  { intros H. apply link_span_bracket in H. discriminate H. }
  exact (proj1 (inline_identity_without_spans _ H1 H2)).
Defined.

(** C10, as stated, fails: an input can contain [[](url)] or [[text]()]
    and come back without them, when the span lies inside a larger span
    that is a link, or when the bold replacement rewrites its address. In
    [[a[](b)] the label is [a[]; in [[a]([text]()] the address is
    [[text](]; in [[](**u**)] the address becomes [<strong>u</strong>]. *)
Lemma empty_label_span_rewritten :
  includes (lit "[a[](b)") (lit "[](b)") = true /\
  processInlineMarkup (lit "[a[](b)") =
    lit "<a href=" ++ DQUOTE :: lit "b" ++ DQUOTE :: lit " target="
      ++ DQUOTE :: lit "_blank" ++ DQUOTE :: lit ">a[</a>" /\
  includes (processInlineMarkup (lit "[a[](b)")) (lit "[](b)") = false /\
  includes (lit "[a]([text]()") (lit "[text]()") = true /\
  includes (processInlineMarkup (lit "[a]([text]()")) (lit "[text]()")
  = false /\
  processInlineMarkup (lit "[](**u**)") = lit "[](<strong>u</strong>)".
Proof. repeat split; vm_compute; reflexivity. Qed.

(** C10, amended. The link pattern matches only with a non-empty label
    and a non-empty address. It does not match at [[]...], nor at [[t]()...]
    for a label [t] free of []], so such a span is never replaced as a link
    of its own. When the text before the span and the span itself have no
    [*] and no [[] besides the one that opens the span, the span comes back
    as it is, whatever follows it: the text before is copied and the rest
    of the input is transformed on its own. *)
Theorem link_needs_label_and_url :
  (forall (s : jsstring) (m : match_result),
      exec_at link_re s = Some m ->
      exists t u,
        cap 1 (m_caps m) = Some t /\ cap 2 (m_caps m) = Some u /\
        t <> [] /\ u <> [])
  /\ (forall rest, exec_at link_re (lit "[]" ++ rest) = None)
  /\ (forall t rest,
         free_of RBRACKET t = true ->
         exec_at link_re (lit "[" ++ t ++ lit "]()" ++ rest) = None)
  /\ (forall pre u post,
         free_of STAR (pre ++ u) = true ->
         free_of LBRACKET (pre ++ u) = true ->
         processInlineMarkup (pre ++ lit "[](" ++ u ++ lit ")" ++ post)
         = pre ++ lit "[](" ++ u ++ lit ")" ++ processInlineMarkup post)
  /\ (forall pre t post,
         free_of STAR (pre ++ t) = true ->
         free_of LBRACKET (pre ++ t) = true ->
         free_of RBRACKET t = true ->
         processInlineMarkup (pre ++ lit "[" ++ t ++ lit "]()" ++ post)
         = pre ++ lit "[" ++ t ++ lit "]()" ++ processInlineMarkup post).
Proof.
  split; [|split; [exact link_empty_label|split; [exact link_empty_url|]]].
  - intros s m H.
    apply exec_link_span in H as (s' & t & u & _ & Ht & _ & Hu & _ & _ & ->).
    exists t, u. auto.
  - split.
    + intros pre u post Hstar Hbr.
      rewrite !free_of_app in Hstar, Hbr.
      apply andb_true_iff in Hstar as [Hs1 Hs2], Hbr as [Hb1 Hb2].
      unfold processInlineMarkup.
      replace (pre ++ lit "[](" ++ u ++ lit ")" ++ post)
        with ((pre ++ lit "[](" ++ u ++ lit ")") ++ post)
        by now rewrite <- !app_assoc.
      rewrite replace_bold_copy
        by (rewrite !free_of_app, Hs1, Hs2; reflexivity).
      rewrite <- app_assoc, (replace_link_copy pre _ Hb1).
      change ((lit "[](" ++ u ++ lit ")")
                ++ replace_all bold_re bold_tpl post)
        with (LBRACKET
                :: (lit "](" ++ u ++ lit ")")
                     ++ replace_all bold_re bold_tpl post).
      rewrite replace_all_no_head
        by apply (link_empty_label (LPAREN :: _)).
      rewrite replace_link_copy
        by (rewrite !free_of_app, Hb2; reflexivity).
      now rewrite <- !app_assoc.
    + intros pre t post Hstar Hbr Ht.
      rewrite !free_of_app in Hstar, Hbr.
      apply andb_true_iff in Hstar as [Hs1 Hs2], Hbr as [Hb1 Hb2].
      unfold processInlineMarkup.
      replace (pre ++ lit "[" ++ t ++ lit "]()" ++ post)
        with ((pre ++ lit "[" ++ t ++ lit "]()") ++ post)
        by now rewrite <- !app_assoc.
      rewrite replace_bold_copy
        by (rewrite !free_of_app, Hs1, Hs2; reflexivity).
      rewrite <- app_assoc, (replace_link_copy pre _ Hb1).
      replace ((lit "[" ++ t ++ lit "]()")
                 ++ replace_all bold_re bold_tpl post)
        with (LBRACKET
                :: (t ++ lit "]()") ++ replace_all bold_re bold_tpl post)
        by (simpl; now rewrite <- !app_assoc).
      rewrite replace_all_no_head.
      * rewrite replace_link_copy
          by (rewrite !free_of_app, Hb2; reflexivity).
        simpl. now rewrite <- !app_assoc.
      * rewrite <- app_assoc. exact (link_empty_url t _ Ht).
Qed.

(** C10, amended, on a text with [[](z)] before a link: the span is kept
    and the link after it is replaced. *)
Lemma link_needs_label_and_url_witness :
  free_of STAR (lit "see " ++ lit "z") = true /\
  free_of LBRACKET (lit "see " ++ lit "z") = true /\
  processInlineMarkup
    (lit "see " ++ lit "[](" ++ lit "z" ++ lit ")" ++ lit " and [x](y)")
  = lit "see " ++ lit "[](" ++ lit "z" ++ lit ")"
      ++ processInlineMarkup (lit " and [x](y)").
Proof.
  assert (H1 : free_of STAR (lit "see " ++ lit "z") = true) by reflexivity.
  assert (H2 : free_of LBRACKET (lit "see " ++ lit "z") = true)
    by reflexivity.
  refine (conj H1 (conj H2 _)).
  exact (proj1 (proj2 (proj2 (proj2 link_needs_label_and_url)))
           (lit "see ") (lit "z") (lit " and [x](y)") H1 H2).
Defined.

(** * Further properties of the block parser *)

(** ** Trimming *)

Lemma trimStart_head (s : jsstring) :
  trimStart s = [] \/
  exists h r, trimStart s = h :: r /\ is_space h = false.
Proof.
  induction s as [|c s IH]; simpl; [now left|].
  destruct (is_space c) eqn:Hc; [exact IH|]. right. eauto.
Qed.

Lemma trimStart_keeps_last (a : jsstring) (h : char) :
  is_space h = false -> exists b, trimStart (a ++ [h]) = b ++ [h].
Proof.
  intros Hh. induction a as [|c a IH]; simpl.
  - rewrite Hh. now exists [].
  - destruct (is_space c); [exact IH|]. now exists (c :: a).
Qed.

Lemma trimStart_app (a b : jsstring) :
  trimStart (a ++ b) =
    if forallb is_space a then trimStart b else trimStart a ++ b.
Proof.
  induction a as [|c a IH]; simpl; [reflexivity|].
  destruct (is_space c); simpl; [exact IH | reflexivity].
Qed.

Lemma forallb_rev (A : Type) (p : A -> bool) (l : list A) :
  forallb p (rev l) = forallb p l.
Proof.
  induction l as [|x l IH]; simpl; [reflexivity|].
  rewrite forallb_app, IH. simpl. rewrite andb_true_r. apply andb_comm.
Qed.

Lemma trim_spaces_r (s w : jsstring) :
  forallb is_space w = true -> trim (s ++ w) = trim s.
Proof.
  intros Hw. unfold trim. rewrite trimStart_app.
  destruct (forallb is_space s) eqn:Hs.
  - now rewrite (trimStart_all_spaces w Hw), (trimStart_all_spaces s Hs).
  - unfold trimEnd. rewrite rev_app_distr, trimStart_spaces; [reflexivity|].
    now rewrite forallb_rev.
Qed.

Lemma trim_idempotent (s : jsstring) : trim (trim s) = trim s.
Proof.
  unfold trim at 2 3.
  destruct (trimStart_head s) as [E | (h & r & E & Hh)]; rewrite E.
  - reflexivity.
  - assert (Hs : trimStart (trimEnd (h :: r)) = trimEnd (h :: r)).
    { unfold trimEnd. simpl rev.
      destruct (trimStart_keeps_last (rev r) h Hh) as [b ->].
      rewrite rev_app_distr. simpl. now rewrite Hh. }
    unfold trim. rewrite Hs. unfold trimEnd at 1 2.
    rewrite rev_involutive.
    assert (Hi : forall x, trimStart (trimStart x) = trimStart x).
    { intros x. induction x as [|c x IH]; simpl; [reflexivity|].
      destruct (is_space c) eqn:Hc; [exact IH|]. simpl. now rewrite Hc. }
    now rewrite Hi.
Qed.

Lemma is_trimmed_trim (s : jsstring) : is_trimmed (trim s) = true.
Proof.
  unfold is_trimmed. rewrite trim_idempotent. now apply str_eqb_eq.
Qed.

(** ** What the body pushes *)

Lemma heading_level_positive (t : jsstring) :
  exists n, heading_level t = S n.
Proof.
  unfold heading_level. destruct (exec_at heading_re t) as [m|]; [|eauto].
  destruct (length (m_text m)); eauto.
Qed.

Lemma alt_of_trimmed (m : match_result) : is_trimmed (alt_of m) = true.
Proof.
  unfold alt_of. destruct (cap 2 (m_caps m)) as [w|]; [|reflexivity].
  destruct (trim w) as [|c l] eqn:E; [reflexivity|].
  rewrite <- E. apply is_trimmed_trim.
Qed.

(** Every state the body returns is the old one after one of the updates of
    the source, with the strings and the sections the source builds. *)
Lemma body_steps (P : loop_state -> Prop) (i : nat) (line : jsstring)
      (st st' : loop_state) :
  body i line st = Returned st' ->
  P (flush_list st) ->
  P (set_inMetadata true st) ->
  P (set_inMetadata false st) ->
  P st ->
  (forall x, P (set_title (trim x) st)) ->
  (forall x, P (set_description (trim x) st)) ->
  (forall sec,
      well_formed_section sec = true -> trimmed_section sec = true ->
      is_list_section sec = false -> P (push sec (flush_list st))) ->
  (forall x, P (push_item (trim x) st)) ->
  P st'.
Proof.
  intros H Hflush Hopen Hclose Hskip Htitle Hdesc Hpush Hitem.
  unfold body in H.
  destruct (trim line) as [|c t] eqn:Et; [now injection H as <-|].
  destruct (str_eqb (c :: t) (lit "---") && Nat.eqb i 0);
    [now injection H as <-|].
  destruct (str_eqb (c :: t) (lit "---") && inMetadata st);
    [now injection H as <-|].
  destruct (inMetadata st).
  { destruct (startsWith (c :: t) (lit "title:")); [injection H as <-; auto|].
    destruct (startsWith (c :: t) (lit "description:"));
      injection H as <-; auto. }
  destruct (startsWith (c :: t) (lit "#")).
  { injection H as <-.
    destruct (heading_level_positive (c :: t)) as [n ->].
    apply Hpush; try reflexivity.
    unfold trimmed_section. simpl. now rewrite is_trimmed_trim. }
  destruct (startsWith (c :: t) (lit "[image:")).
  { destruct (search image_re (c :: t)) as [m|]; [|now injection H as <-].
    destruct (cap 1 (m_caps m)); [|discriminate].
    injection H as <-. apply Hpush; try reflexivity.
    unfold trimmed_section. simpl.
    now rewrite is_trimmed_trim, alt_of_trimmed. }
  destruct (startsWith (c :: t) (lit "-")); injection H as <-; [auto|].
  apply Hpush; try reflexivity.
  unfold trimmed_section. simpl. rewrite <- Et, is_trimmed_trim. reflexivity.
Qed.

(** ** The state stays well formed *)

Lemma state_well_formed_initial : state_well_formed initial_state.
Proof. repeat split; try reflexivity. discriminate. Qed.

Lemma state_well_formed_flush (st : loop_state) :
  state_well_formed st -> state_well_formed (flush_list st).
Proof.
  intros (Hw & Ht & Hc & Hp & Hti & Hde).
  unfold state_well_formed.
  rewrite flush_list_sections, flush_list_currentList, !forallb_app, Hw, Ht.
  unfold pending in *. rewrite flush_list_currentList.
  unfold flush_list. destruct (currentList st) as [l|] eqn:E; simpl.
  - unfold trimmed_section. simpl. rewrite Hp.
    destruct l; [now elim Hc|]. repeat split; auto; discriminate.
  - repeat split; auto; discriminate.
Qed.

Lemma state_well_formed_body (i : nat) (line : jsstring)
      (st st' : loop_state) :
  state_well_formed st -> body i line st = Returned st' ->
  state_well_formed st'.
Proof.
  intros Hst H. pose proof (state_well_formed_flush st Hst) as Hf.
  apply (body_steps state_well_formed _ _ _ _ H); auto.
  - intros x. destruct Hst as (Hw & Ht & Hc & Hp & Hti & Hde).
    repeat split; auto. simpl. apply is_trimmed_trim.
  - intros x. destruct Hst as (Hw & Ht & Hc & Hp & Hti & Hde).
    repeat split; auto. simpl. apply is_trimmed_trim.
  - intros sec Hsw Hst' _. destruct Hf as (Hw & Ht & Hc & Hp & Hti & Hde).
    unfold state_well_formed, pending in *.
    cbn [push result sections currentList title description].
    rewrite !forallb_app, Hw, Ht. cbn [forallb]. rewrite Hsw, Hst'.
    repeat split; auto.
  - intros x. destruct Hst as (Hw & Ht & Hc & Hp & Hti & Hde).
    unfold state_well_formed, pending in *.
    cbn [push_item result sections currentList title description].
    repeat split; auto.
    + destruct (currentList st) as [l|]; [|discriminate].
      intros [= E]. now destruct l.
    + destruct (currentList st) as [l|].
      * rewrite forallb_app, Hp. cbn [forallb].
        now rewrite is_trimmed_trim.
      * cbn [forallb]. now rewrite is_trimmed_trim.
Qed.

Lemma state_well_formed_scan (lines : list jsstring) :
  forall i st st',
    state_well_formed st -> scan lines i st = Returned st' ->
    state_well_formed st'.
Proof.
  induction lines as [|l ls IH]; intros i st st' Hst H; simpl in H.
  - now injection H as <-.
  - destruct (body i l st) as [st1|e] eqn:Hb; [|discriminate].
    simpl in H. eapply IH; [|exact H]. eapply state_well_formed_body; eauto.
Qed.

Lemma parsePmap_well_formed (content : jsstring) :
  exists st,
    scan (split_lines content) 0 initial_state = Returned st /\
    parsePmap content = Returned (finish st) /\
    state_well_formed (flush_list st).
Proof.
  destruct (scan_total (split_lines content) 0 initial_state) as [st Hst].
  exists st. split; [exact Hst|]. split.
  - unfold parsePmap, parse_lines. now rewrite Hst.
  - apply state_well_formed_flush.
    exact (state_well_formed_scan _ _ _ _ state_well_formed_initial Hst).
Qed.

(** X1. Every section of the document [parsePmap] returns carries the
    fields of its kind and no other: a text has a non-empty content, a
    heading a level of at least 1, a list at least one item and an empty
    content, an image a url and an alt and an empty content; and no section
    is a link. *)
Theorem sections_well_formed (content : jsstring) :
  exists d,
    parsePmap content = Returned d /\
    forallb well_formed_section (sections d) = true /\
    forall sec, In sec (sections d) -> type sec <> TLink.
Proof.
  destruct (parsePmap_well_formed content) as (st & _ & Hp & Hw & _).
  exists (finish st). split; [exact Hp|]. rewrite finish_sections.
  split; [exact Hw|]. intros sec Hin E.
  rewrite forallb_forall in Hw. specialize (Hw sec Hin).
  unfold well_formed_section in Hw. rewrite E in Hw. discriminate.
Qed.

(** X2. Every string of the document [parsePmap] returns is trimmed: the
    title and the description, the contents, the items of the lists, the
    url and the alt of the images. *)
Theorem document_strings_trimmed (content : jsstring) :
  exists d,
    parsePmap content = Returned d /\
    trimmed_option (title d) = true /\
    trimmed_option (description d) = true /\
    forallb trimmed_section (sections d) = true.
Proof.
  destruct (parsePmap_well_formed content)
    as (st & _ & Hp & _ & Ht & _ & _ & Hti & Hde).
  exists (finish st). split; [exact Hp|].
  destruct (finish_metadata st) as [-> ->]. rewrite finish_sections.
  unfold flush_list in Hti, Hde. destruct (currentList st); auto.
Qed.

(** ** Blank input *)

Lemma split_lines_spaces (s : jsstring) :
  forallb is_space s = true ->
  Forall (fun l => forallb is_space l = true) (split_lines s).
Proof.
  induction s as [|c s IH]; simpl; intros H.
  - repeat constructor.
  - apply andb_true_iff in H as [Hc Hs]. specialize (IH Hs).
    destruct (N.eqb c LF); [now constructor|].
    destruct (split_lines s) as [|l ls].
    + repeat constructor. simpl. now rewrite Hc.
    + inversion IH as [|? ? Hl Hls]; subst. constructor; [|assumption].
      simpl. now rewrite Hc, Hl.
Qed.

Lemma scan_blank_lines (lines : list jsstring) :
  forall i st,
    currentList st = None ->
    Forall (fun l => forallb is_space l = true) lines ->
    scan lines i st = Returned st.
Proof.
  induction lines as [|l ls IH]; intros i st Hc Hall; [reflexivity|].
  inversion Hall as [|? ? Hl Hls]; subst. cbn [scan].
  rewrite (body_blank i l st (trim_all_spaces l Hl)).
  rewrite flush_list_none by assumption. cbn [bind]. now apply IH.
Qed.

(** X3. An input of white space only, the empty string among them, gives
    the empty document: no title, no description, no section. *)
Theorem blank_input_empty_document (content : jsstring) :
  forallb is_space content = true ->
  parsePmap content =
    Returned {| title := None; description := None; sections := [] |}.
Proof.
  intros H. unfold parsePmap, parse_lines.
  now rewrite (scan_blank_lines _ 0 initial_state eq_refl
                 (split_lines_spaces content H)).
Qed.

(** X3 on two blank lines with a carriage return and a tab. *)
Lemma blank_input_empty_document_witness :
  forallb is_space (lit "  " ++ [13%N; LF; 9%N]) = true /\
  parsePmap (lit "  " ++ [13%N; LF; 9%N]) =
    Returned {| title := None; description := None; sections := [] |}.
Proof.
  assert (H : forallb is_space (lit "  " ++ [13%N; LF; 9%N]) = true)
    by reflexivity.
  exact (conj H (blank_input_empty_document _ H)).
Defined.

(** ** Metadata only at the top *)

Lemma body_not_delimiter (i : nat) (line : jsstring) (st st' : loop_state) :
  trim line <> lit "---" -> inMetadata st = false ->
  body i line st = Returned st' ->
  inMetadata st' = false /\ title (result st') = title (result st) /\
  description (result st') = description (result st).
Proof.
  intros Hd Hm H. unfold body in H.
  assert (Hf : inMetadata (flush_list st) = false /\
               title (result (flush_list st)) = title (result st) /\
               description (result (flush_list st)) = description (result st)).
  { rewrite flush_list_inMetadata. unfold flush_list.
    destruct (currentList st); auto. }
  destruct (trim line) as [|c t] eqn:Et; [now injection H as <-|].
  replace (str_eqb (c :: t) (lit "---")) with false in H
    by (symmetry; apply not_true_is_false; now rewrite str_eqb_eq).
  rewrite Hm in H. cbn [andb] in H.
  destruct (startsWith (c :: t) (lit "#")); [now injection H as <-|].
  destruct (startsWith (c :: t) (lit "[image:")).
  { destruct (search image_re (c :: t)) as [m|]; [|now injection H as <-].
    destruct (cap 1 (m_caps m)); [|discriminate]. now injection H as <-. }
  destruct (startsWith (c :: t) (lit "-")); injection H as <-; auto.
Qed.

(** X4. A document whose first line does not trim to [---] has no title and
    no description, whatever its other lines are: the metadata block opens
    at index 0 or never. *)
Theorem metadata_only_at_top
        (content l0 : jsstring) (rest : list jsstring) :
  split_lines content = l0 :: rest ->
  trim l0 <> lit "---" ->
  exists d,
    parsePmap content = Returned d /\
    title d = None /\ description d = None.
Proof.
  intros Hsplit H0. unfold parsePmap, parse_lines. rewrite Hsplit.
  cbn [scan].
  destruct (body_total 0 l0 initial_state) as [st1 Hb]. rewrite Hb.
  destruct (body_not_delimiter 0 l0 initial_state st1 H0 eq_refl Hb)
    as (Hm1 & Ht1 & Hd1).
  cbn [bind].
  destruct (scan_total rest 1 st1) as [st2 Hs]. rewrite Hs. cbn [bind].
  destruct (scan_outside_metadata rest 1 st1 st2 (Nat.neq_succ_0 0) Hm1 Hs)
    as (_ & Ht2 & Hd2).
  exists (finish st2). split; [reflexivity|].
  destruct (finish_metadata st2) as [-> ->].
  rewrite Ht2, Hd2, Ht1, Hd1. auto.
Qed.

(** X4 on a metadata block that comes after a blank first line. *)
Lemma metadata_only_at_top_witness :
  exists d,
    parsePmap (join_lines [[]; lit "---"; lit "title: T"; lit "---"])
    = Returned d /\ title d = None /\ description d = None.
Proof.
  assert (H1 : split_lines
                 (join_lines [[]; lit "---"; lit "title: T"; lit "---"])
               = [] :: [lit "---"; lit "title: T"; lit "---"])
    by reflexivity.
  assert (H2 : trim [] <> lit "---") by discriminate.
  exact (metadata_only_at_top _ _ _ H1 H2).
Defined.

(** ** Paragraphs *)

Lemma scan_paragraphs (lines : list jsstring) :
  forall i st,
    inMetadata st = false -> currentList st = None ->
    forallb is_paragraph lines = true ->
    scan lines i st =
      Returned
        {| result :=
             {| title := title (result st);
                description := description (result st);
                sections :=
                  sections (result st)
                    ++ map (fun l => text_section (trim l)) lines |};
           currentList := None;
           inMetadata := false |}.
Proof.
  induction lines as [|l ls IH]; intros i st Hm Hc H.
  - simpl. rewrite app_nil_r. destruct st as [[t d s] c m].
    simpl in *. now subst.
  - cbn [forallb] in H. apply andb_true_iff in H as [Hl Hls].
    unfold is_paragraph, nonblank in Hl.
    repeat (apply andb_true_iff in Hl as [Hl ?]).
    cbn [scan]. rewrite body_text; auto.
    + cbn [bind]. rewrite flush_list_none by assumption.
      rewrite IH by auto. cbn [push result sections title description map].
      now rewrite <- app_assoc.
    + intros E. now rewrite E in Hl.
    + now apply negb_true_iff.
    + now apply negb_true_iff.
    + now apply negb_true_iff.
Qed.

(** X5. A document all of whose lines are paragraphs (not blank, not
    starting with [#], [[image:] or [-] once trimmed) has one [text] section
    per line, in the order of the lines, each with the trimmed line as its
    content: adjacent lines are never joined. *)
Theorem paragraphs_one_section_per_line (content : jsstring) :
  forallb is_paragraph (split_lines content) = true ->
  parsePmap content =
    Returned
      {| title := None; description := None;
         sections :=
           map (fun l => {| type := TText; content := trim l; level := None;
                            items := None; url := None; alt := None |})
             (split_lines content) |}.
Proof.
  intros H. unfold parsePmap, parse_lines.
  now rewrite (scan_paragraphs _ 0 initial_state eq_refl eq_refl H).
Qed.

(** X5 on three lines, one of them a [title:] line outside any block. *)
Lemma paragraphs_one_section_per_line_witness :
  parsePmap (join_lines [lit " one "; lit "title: two"; lit "three"]) =
    Returned
      {| title := None; description := None;
         sections :=
           [{| type := TText; content := lit "one"; level := None;
               items := None; url := None; alt := None |};
            {| type := TText; content := lit "title: two"; level := None;
               items := None; url := None; alt := None |};
            {| type := TText; content := lit "three"; level := None;
               items := None; url := None; alt := None |}] |}.
Proof.
  assert (H : forallb is_paragraph
                (split_lines
                   (join_lines [lit " one "; lit "title: two"; lit "three"]))
              = true) by reflexivity.
  exact (paragraphs_one_section_per_line _ H).
Defined.

(** ** White space around the lines *)

Lemma body_trim_only (i : nat) (l1 l2 : jsstring) (st : loop_state) :
  trim l1 = trim l2 -> body i l1 st = body i l2 st.
Proof. intros H. unfold body. now rewrite H. Qed.

Lemma scan_trim_only (ls1 : list jsstring) :
  forall ls2 i st,
    map trim ls1 = map trim ls2 -> scan ls1 i st = scan ls2 i st.
Proof.
  induction ls1 as [|l1 ls1 IH]; intros [|l2 ls2] i st H;
    try discriminate; [reflexivity|].
  injection H as Hl Hls. cbn [scan]. rewrite (body_trim_only i l1 l2 st Hl).
  destruct (body i l2 st); [|reflexivity]. cbn [bind]. now apply IH.
Qed.

(** X6. The document depends on the lines only through their trimmed forms:
    two inputs whose lines trim to the same strings parse to the same
    document, so indentation and trailing white space never matter. *)
Theorem parse_depends_on_trimmed_lines (content1 content2 : jsstring) :
  map trim (split_lines content1) = map trim (split_lines content2) ->
  parsePmap content1 = parsePmap content2.
Proof.
  intros H. unfold parsePmap, parse_lines.
  now rewrite (scan_trim_only _ _ 0 initial_state H).
Qed.

(** X6 on an indented copy of a heading and a list item. *)
Lemma parse_depends_on_trimmed_lines_witness :
  parsePmap (join_lines [lit "   # A  "; lit "- x"]) =
    parsePmap (join_lines [lit "# A"; lit "  - x   "]).
Proof.
  assert (H : map trim (split_lines (join_lines [lit "   # A  "; lit "- x"]))
              = map trim
                  (split_lines (join_lines [lit "# A"; lit "  - x   "]))).
  { reflexivity. }
  exact (parse_depends_on_trimmed_lines _ _ H).
Defined.

(** ** Line endings *)

Lemma split_lines_crlf (s : jsstring) :
  Forall2 (fun a b => b = a \/ b = a ++ [13%N])
    (split_lines s) (split_lines (to_crlf s)).
Proof.
  induction s as [|c s IH].
  - repeat constructor.
  - unfold to_crlf in *. cbn [flat_map split_lines].
    destruct (N.eqb c LF) eqn:Ec.
    + cbn [app split_lines]. change (N.eqb 13 LF) with false.
      change (N.eqb LF LF) with true. cbv iota.
      constructor; [now right | exact IH].
    + cbn [app split_lines]. rewrite Ec.
      destruct IH as [|a b la lb [-> | ->] Hrest].
      * repeat constructor.
      * constructor; [now left | assumption].
      * constructor; [now right | assumption].
Qed.

Lemma trim_crlf (ls1 ls2 : list jsstring) :
  Forall2 (fun a b => b = a \/ b = a ++ [13%N]) ls1 ls2 ->
  map trim ls2 = map trim ls1.
Proof.
  induction 1 as [|a b la lb [-> | ->] _ IH]; simpl; [reflexivity| |];
    rewrite IH; [reflexivity|].
  now rewrite trim_spaces_r.
Qed.

(** X7. Line endings written as carriage return and line feed parse like
    line feeds alone: the carriage return stays at the end of its line after
    the split and the trim removes it. *)
Theorem parsePmap_crlf (content : jsstring) :
  parsePmap (to_crlf content) = parsePmap content.
Proof.
  unfold parsePmap, parse_lines.
  now rewrite (scan_trim_only _ _ 0 initial_state
                 (trim_crlf _ _ (split_lines_crlf content))).
Qed.

(** ** Blank lines *)

Lemma body_past_first (i j : nat) (line : jsstring) (st : loop_state) :
  body (S i) line st = body (S j) line st.
Proof. reflexivity. Qed.

Lemma scan_past_first (lines : list jsstring) :
  forall i j st, scan lines (S i) st = scan lines (S j) st.
Proof.
  induction lines as [|l ls IH]; intros i j st; [reflexivity|].
  cbn [scan]. rewrite (body_past_first i j).
  destruct (body (S j) l st); [|reflexivity]. cbn [bind]. apply IH.
Qed.

Lemma flush_list_idempotent (st : loop_state) :
  flush_list (flush_list st) = flush_list st.
Proof. apply flush_list_none, flush_list_currentList. Qed.

(** X8. Blank lines in a row count as one: a second blank line directly
    after a blank line changes nothing in the document. *)
Theorem blank_lines_collapse
        (pre : list jsstring) (b1 b2 : jsstring) (post : list jsstring) :
  trim b1 = [] -> trim b2 = [] ->
  parse_lines (pre ++ b1 :: b2 :: post) = parse_lines (pre ++ b1 :: post).
Proof.
  intros H1 H2. unfold parse_lines. rewrite !scan_app.
  destruct (scan pre 0 initial_state) as [st|e]; [|reflexivity].
  cbn [bind scan].
  rewrite (body_blank _ b1 st H1). cbn [bind].
  rewrite (body_blank _ b2 _ H2). cbn [bind].
  rewrite flush_list_idempotent.
  now rewrite (scan_past_first post (S (0 + length pre)) (0 + length pre)).
Qed.

(** X8 on a blank line doubled between two list items. *)
Lemma blank_lines_collapse_witness :
  parse_lines ([lit "- a"] ++ lit " " :: [] :: [lit "- b"]) =
    parse_lines ([lit "- a"] ++ lit " " :: [lit "- b"]).
Proof.
  assert (H1 : trim (lit " ") = []) by reflexivity.
  assert (H2 : trim [] = []) by reflexivity.
  exact (blank_lines_collapse [lit "- a"] (lit " ") [] [lit "- b"] H1 H2).
Defined.

(** ** How many sections *)

Lemma sections_due_scan (lines : list jsstring) :
  forall i st st',
    scan lines i st = Returned st' ->
    sections_due st' <= sections_due st + length (filter nonblank lines).
Proof.
  induction lines as [|l ls IH]; intros i st st' H; simpl in H.
  - injection H as <-. simpl. lia.
  - destruct (body i l st) as [st1|e] eqn:Hb; [|discriminate].
    simpl in H. apply IH in H. apply sections_due_body in Hb.
    cbn [filter]. destruct (nonblank l); simpl; lia.
Qed.

(** X9. The document has at most as many sections as the input has lines
    that are not blank: every section takes a line of its own, a list at
    least one. *)
Theorem sections_bounded_by_lines (content : jsstring) :
  exists d,
    parsePmap content = Returned d /\
    length (sections d) <= length (filter nonblank (split_lines content)).
Proof.
  unfold parsePmap, parse_lines.
  destruct (scan_total (split_lines content) 0 initial_state) as [st Hst].
  exists (finish st). rewrite Hst. split; [reflexivity|].
  apply sections_due_scan in Hst.
  rewrite finish_sections.
  pose proof (sections_due_flush st) as E. unfold sections_due at 1 in E.
  rewrite flush_list_currentList in E. simpl in Hst. lia.
Qed.

(** ** Lists next to each other *)

(** X12. Two runs of list items with a blank line between them give two
    [list] sections, one per run, each with the items of its run in order:
    the blank line ends the first list. *)
Theorem blank_line_separates_lists
        (run1 run2 : list jsstring) (blank : jsstring) :
  run1 <> [] -> run2 <> [] ->
  Forall (fun l => startsWith (trim l) (lit "-") = true) run1 ->
  Forall (fun l => startsWith (trim l) (lit "-") = true) run2 ->
  hd [] (map trim run1) <> lit "---" ->
  trim blank = [] ->
  parse_lines (run1 ++ blank :: run2) =
    Returned
      {| title := None; description := None;
         sections :=
           [{| type := TList; content := []; level := None;
               items := Some (map (fun l => trim (substring (trim l) 1))
                                run1);
               url := None; alt := None |};
            {| type := TList; content := []; level := None;
               items := Some (map (fun l => trim (substring (trim l) 1))
                                run2);
               url := None; alt := None |}] |}.
Proof.
  intros Hn1 Hn2 H1 H2 Hd Hb. unfold parse_lines.
  rewrite scan_app.
  rewrite (scan_list_run run1 0 initial_state eq_refl H1 (fun _ => Hd)).
  rewrite (fold_push_items run1 initial_state Hn1).
  cbn [bind scan]. rewrite (body_blank _ blank _ Hb). cbn [bind].
  rewrite scan_list_run; [|reflexivity|assumption|intros [=]].
  rewrite (fold_push_items run2 _ Hn2). reflexivity.
Qed.

(** X12 on two items, a blank line and one item. *)
Lemma blank_line_separates_lists_witness :
  parse_lines ([lit "- a"; lit "-b"] ++ lit "  " :: [lit "- c"]) =
    Returned
      {| title := None; description := None;
         sections :=
           [{| type := TList; content := []; level := None;
               items := Some [lit "a"; lit "b"]; url := None; alt := None |};
            {| type := TList; content := []; level := None;
               items := Some [lit "c"]; url := None; alt := None |}] |}.
Proof.
  assert (H1 : [lit "- a"; lit "-b"] <> []) by discriminate.
  assert (H2 : [lit "- c"] <> []) by discriminate.
  assert (H3 : Forall (fun l => startsWith (trim l) (lit "-") = true)
                 [lit "- a"; lit "-b"]) by (repeat constructor).
  assert (H4 : Forall (fun l => startsWith (trim l) (lit "-") = true)
                 [lit "- c"]) by (repeat constructor).
  assert (H5 : hd [] (map trim [lit "- a"; lit "-b"]) <> lit "---")
    by discriminate.
  assert (H6 : trim (lit "  ") = []) by reflexivity.
  exact (blank_line_separates_lists _ _ _ H1 H2 H3 H4 H5 H6).
Defined.

(** * Further properties of the inline transformer *)

Lemma star_run_stop (R : Type) (p : char -> bool) (w : jsstring) (c : char)
      (s : jsstring) (caps : captures) (k : cont R) (res : R) :
  forallb p w = true -> p c = false ->
  k (c :: s) caps = Some res ->
  star p (w ++ c :: s) caps k = Some res.
Proof.
  intros Hw Hc Hk. apply star_run; [exact Hw|]. now rewrite star_stop.
Qed.

(** The bold pattern at [**x**], [x] non-empty and free of [*]. *)
Lemma exec_bold_match (x post : jsstring) :
  x <> [] -> free_of STAR x = true ->
  exec_at bold_re ((lit "**" ++ x ++ lit "**") ++ post) =
    Some {| m_text := lit "**" ++ x ++ lit "**"; m_caps := set_cap 1 x [] |}.
Proof.
  intros Hne Hx. destruct x as [|a x]; [contradiction|].
  cbn [free_of forallb] in Hx. apply andb_true_iff in Hx as [Ha Hx].
  unfold exec_at, bold_re.
  replace ((lit "**" ++ (a :: x) ++ lit "**") ++ post)
    with (lit "**" ++ (a :: x) ++ STAR :: lit "*" ++ post)
    by now rewrite <- !app_assoc.
  cbn [rmatch]. rewrite strip_prefix_app. cbn [app].
  change (not_star a) with (negb (N.eqb a STAR)). rewrite Ha.
  apply star_run_stop; [exact Hx | reflexivity |].
  change (a :: x ++ STAR :: lit "*" ++ post)
    with ((a :: x) ++ lit "**" ++ post).
  change (STAR :: lit "*" ++ post) with (lit "**" ++ post).
  rewrite consumed_app, strip_prefix_app.
  replace (lit "**" ++ (a :: x) ++ lit "**" ++ post)
    with ((lit "**" ++ (a :: x) ++ lit "**") ++ post)
    by now rewrite <- !app_assoc.
  now rewrite consumed_app.
Qed.

(** The link pattern at [[t](u)], [t] non-empty and free of []], [u]
    non-empty and free of [)]. *)
Lemma exec_link_match (t u post : jsstring) :
  t <> [] -> free_of RBRACKET t = true ->
  u <> [] -> free_of RPAREN u = true ->
  exec_at link_re ((lit "[" ++ t ++ lit "](" ++ u ++ lit ")") ++ post) =
    Some {| m_text := lit "[" ++ t ++ lit "](" ++ u ++ lit ")";
            m_caps := set_cap 2 u (set_cap 1 t []) |}.
Proof.
  intros Hnt Ht Hnu Hu.
  destruct t as [|a t]; [contradiction|].
  destruct u as [|b u]; [contradiction|].
  cbn [free_of forallb] in Ht, Hu.
  apply andb_true_iff in Ht as [Ha Ht], Hu as [Hb Hu].
  unfold exec_at, link_re.
  replace ((lit "[" ++ (a :: t) ++ lit "](" ++ (b :: u) ++ lit ")") ++ post)
    with (lit "[" ++ (a :: t) ++ RBRACKET :: lit "("
            ++ (b :: u) ++ RPAREN :: post)
    by now rewrite <- !app_assoc.
  cbn [rmatch]. rewrite strip_prefix_app. cbn [app].
  change (not_rbracket a) with (negb (N.eqb a RBRACKET)). rewrite Ha.
  apply star_run_stop; [exact Ht | reflexivity |].
  change (a :: t ++ RBRACKET :: lit "(" ++ b :: u ++ RPAREN :: post)
    with ((a :: t) ++ lit "](" ++ b :: u ++ RPAREN :: post).
  change (RBRACKET :: lit "(" ++ b :: u ++ RPAREN :: post)
    with (lit "](" ++ b :: u ++ RPAREN :: post).
  rewrite consumed_app, strip_prefix_app. cbv beta iota.
  change (not_rparen b) with (negb (N.eqb b RPAREN)). rewrite Hb.
  apply star_run_stop; [exact Hu | reflexivity |].
  change (b :: u ++ RPAREN :: post) with ((b :: u) ++ lit ")" ++ post).
  change (RPAREN :: post) with (lit ")" ++ post).
  rewrite consumed_app, strip_prefix_app.
  replace (lit "[" ++ (a :: t) ++ lit "](" ++ (b :: u) ++ lit ")" ++ post)
    with ((lit "[" ++ (a :: t) ++ lit "](" ++ (b :: u) ++ lit ")") ++ post)
    by now rewrite <- !app_assoc.
  now rewrite consumed_app.
Qed.

(** X10. A bold span [**x**], [x] non-empty and free of [*] and [[], after
    a text free of [*] and [[], becomes [<strong>x</strong>]; the text before
    it is copied and the rest of the input is transformed on its own. *)
Theorem bold_span_replaced (pre x post : jsstring) :
  free_of STAR pre = true -> free_of LBRACKET pre = true ->
  x <> [] -> free_of STAR x = true -> free_of LBRACKET x = true ->
  processInlineMarkup (pre ++ lit "**" ++ x ++ lit "**" ++ post) =
    pre ++ lit "<strong>" ++ x ++ lit "</strong>" ++ processInlineMarkup post.
Proof.
  intros Hps Hpb Hne Hxs Hxb. unfold processInlineMarkup.
  rewrite (replace_bold_copy pre _ Hps).
  replace (lit "**" ++ x ++ lit "**" ++ post)
    with ((lit "**" ++ x ++ lit "**") ++ post) by now rewrite <- !app_assoc.
  assert (Hw : lit "**" ++ x ++ lit "**" <> []) by (simpl; discriminate).
  rewrite (replace_all_match bold_re bold_tpl _ post _
             Hw (exec_bold_match x post Hne Hxs) eq_refl).
  cbn [expand flat_map expand_item bold_tpl m_caps cap set_cap Nat.eqb].
  rewrite app_nil_r.
  replace (pre ++ (lit "<strong>" ++ x ++ lit "</strong>")
             ++ replace_all bold_re bold_tpl post)
    with ((pre ++ lit "<strong>" ++ x ++ lit "</strong>")
            ++ replace_all bold_re bold_tpl post)
    by now rewrite <- !app_assoc.
  rewrite replace_link_copy.
  - now rewrite <- !app_assoc.
  - rewrite !free_of_app, Hpb, Hxb. reflexivity.
Qed.

(** X10 on the example of the specification, up to its link. *)
Lemma bold_span_replaced_witness :
  processInlineMarkup
    ([] ++ lit "**" ++ lit "bold" ++ lit "**" ++ lit " and [go](http://x)") =
    [] ++ lit "<strong>" ++ lit "bold" ++ lit "</strong>"
       ++ processInlineMarkup (lit " and [go](http://x)").
Proof.
  assert (H1 : free_of STAR [] = true) by reflexivity.
  assert (H2 : free_of LBRACKET [] = true) by reflexivity.
  assert (H3 : lit "bold" <> []) by discriminate.
  assert (H4 : free_of STAR (lit "bold") = true) by reflexivity.
  assert (H5 : free_of LBRACKET (lit "bold") = true) by reflexivity.
  exact (bold_span_replaced [] (lit "bold") (lit " and [go](http://x)")
           H1 H2 H3 H4 H5).
Defined.

(** X11. A link span [[t](u)], [t] non-empty and free of []] and [*], [u]
    non-empty and free of [)] and [*], after a text free of [*] and [[],
    becomes an [a] element with [u] as its [href], [_blank] as its target
    and [t] as its text; the text before it is copied and the rest of the
    input is transformed on its own. *)
Theorem link_span_replaced (pre t u post : jsstring) :
  free_of STAR pre = true -> free_of LBRACKET pre = true ->
  t <> [] -> free_of RBRACKET t = true -> free_of STAR t = true ->
  u <> [] -> free_of RPAREN u = true -> free_of STAR u = true ->
  processInlineMarkup (pre ++ lit "[" ++ t ++ lit "](" ++ u ++ lit ")" ++ post)
  = pre ++ lit "<a href=" ++ DQUOTE :: u ++ DQUOTE :: lit " target="
      ++ DQUOTE :: lit "_blank" ++ DQUOTE :: lit ">" ++ t ++ lit "</a>"
      ++ processInlineMarkup post.
Proof.
  intros Hps Hpb Hnt Htb Hts Hnu Hup Hus. unfold processInlineMarkup.
  replace (pre ++ lit "[" ++ t ++ lit "](" ++ u ++ lit ")" ++ post)
    with ((pre ++ lit "[" ++ t ++ lit "](" ++ u ++ lit ")") ++ post)
    by now rewrite <- !app_assoc.
  rewrite replace_bold_copy
    by (rewrite !free_of_app, Hps, Hts, Hus; reflexivity).
  replace ((pre ++ lit "[" ++ t ++ lit "](" ++ u ++ lit ")")
             ++ replace_all bold_re bold_tpl post)
    with (pre ++ (lit "[" ++ t ++ lit "](" ++ u ++ lit ")")
            ++ replace_all bold_re bold_tpl post)
    by now rewrite <- !app_assoc.
  rewrite (replace_link_copy pre _ Hpb).
  assert (Hw : lit "[" ++ t ++ lit "](" ++ u ++ lit ")" <> [])
    by (simpl; discriminate).
  rewrite (replace_all_match link_re link_tpl _ _ _
             Hw (exec_link_match t u _ Hnt Htb Hnu Hup) eq_refl).
  cbn [expand flat_map expand_item link_tpl m_caps cap set_cap Nat.eqb].
  rewrite app_nil_r. rewrite <- !app_assoc. reflexivity.
Qed.

(** X11 on the link of the example of the specification. *)
Lemma link_span_replaced_witness :
  processInlineMarkup
    (lit " and " ++ lit "[" ++ lit "go" ++ lit "](" ++ lit "http://x"
       ++ lit ")" ++ lit "!") =
    lit " and " ++ lit "<a href=" ++ DQUOTE :: lit "http://x" ++ DQUOTE
      :: lit " target=" ++ DQUOTE :: lit "_blank" ++ DQUOTE :: lit ">"
      ++ lit "go" ++ lit "</a>" ++ processInlineMarkup (lit "!").
Proof.
  assert (H1 : free_of STAR (lit " and ") = true) by reflexivity.
  assert (H2 : free_of LBRACKET (lit " and ") = true) by reflexivity.
  assert (H3 : lit "go" <> []) by discriminate.
  assert (H4 : free_of RBRACKET (lit "go") = true) by reflexivity.
  assert (H5 : free_of STAR (lit "go") = true) by reflexivity.
  assert (H6 : lit "http://x" <> []) by discriminate.
  assert (H7 : free_of RPAREN (lit "http://x") = true) by reflexivity.
  assert (H8 : free_of STAR (lit "http://x") = true) by reflexivity.
  exact (link_span_replaced (lit " and ") (lit "go") (lit "http://x")
           (lit "!") H1 H2 H3 H4 H5 H6 H7 H8).
Defined.
